(** * simpleperf: a shallow embedding of [simpleperf/simpleperf.py]

    The development follows the source file top to bottom: the statistics
    printer [print_statistics], the receiving session [handle_client] and
    the sending session [client].  Socket and clock calls are answered by an
    explicit [world]; everything the program prints, sends or closes is
    appended to the world's [trace]. *)

From Stdlib Require Import ZArith QArith Qround Qabs String Ascii List Lia Bool.
From Stdlib Require Import DecimalString DecimalPos.
From Stdlib.Strings Require Import Byte.
Import ListNotations.

Local Open Scope string_scope.
Local Open Scope Z_scope.

(** ** Python numbers

    [time.time()], the [-t] argument and every quotient computed with [/] are
    Python floats; byte counts and the [-i] argument are Python ints, and the
    two kinds are mixed freely by the arithmetic operators.  The embedding
    keeps ints as [Z] and is parametric in the type [num] of numbers that
    the operators work on: [of_int] is the inclusion of an int, the other
    fields are Python's operators and formatters.  Only two facts about
    comparisons are used, and both hold of Python (NaN included).

    The operators are total.  The only division by a variable, in line 52,
    comes after the guard of line 34, which has excluded a zero divisor;
    an int too large to be turned into a float would be a count of more
    than 10^308 bytes. *)

Class PyNum (num : Type) : Type := {
  of_int : Z -> num;
  num_div : num -> num -> num;          (* a / b *)
  num_mul : num -> num -> num;          (* a * b *)
  num_add : num -> num -> num;          (* a + b *)
  num_sub : num -> num -> num;          (* a - b *)
  num_gt : num -> num -> bool;          (* a > b *)
  num_le : num -> num -> bool;          (* a <= b *)
  num_fixed : nat -> num -> string;     (* f"{a:.Nf}" *)
  num_str : num -> string;              (* f"{a}" *)
  num_gt_not_le : forall a b, num_gt a b = true -> num_le a b = false;
  num_le_of_int : forall a b, num_le (of_int a) (of_int b) = (a <=? b)
}.

(** ** Text helpers *)

(** [str(n)] for an int. *)
Definition str_int (n : Z) : string := NilZero.string_of_int (Z.to_int n).

Fixpoint spaces (n : nat) : string :=
  match n with
  | O => ""
  | S k => String " " (spaces k)
  end.

(** [f"{s:<w}"]: left-justify in a field of width [w]; never truncates. *)
Definition ljust (w : nat) (s : string) : string :=
  s ++ spaces (w - String.length s).

Fixpoint repeat_string (n : nat) (s : string) : string :=
  match n with
  | O => ""
  | S k => s ++ repeat_string k s
  end.

(** [s[:-k]] *)
Definition drop_last (k : nat) (s : string) : string :=
  substring 0 (String.length s - k) s.

(** [s.endswith(suffix)] *)
Definition endswith (s suffix : string) : bool :=
  let n := String.length s in
  let k := String.length suffix in
  (k <=? n)%nat && String.eqb (substring (n - k) k s) suffix.

(** ** Exact rational numbers as an instance

    The rationals with exact arithmetic satisfy the interface; they are used
    to run the model on concrete sessions, and for nothing else.  They are
    not Python's floats: a float is the binary number nearest to the exact
    result, so the two can differ in the last digit printed when the exact
    value lies half way between two candidates.  Fixed-point formatting
    rounds half to even, as the [.Nf] format does on the value it is
    given. *)

Module ExactNum.

Definition round_half_even (q : Q) : Z :=
  let f := Qfloor q in
  let r := (q - inject_Z f)%Q in
  match (r ?= 1 # 2)%Q with
  | Lt => f
  | Gt => f + 1
  | Eq => if Z.even f then f else f + 1
  end.

(** [s] with zeros in front, up to [width] characters. *)
Definition zero_pad (width : nat) (s : string) : string :=
  repeat_string (width - String.length s) "0" ++ s.

Definition fixed (d : nat) (q : Q) : string :=
  let scale := 10 ^ Z.of_nat d in
  let n := round_half_even (Qabs q * inject_Z scale)%Q in
  let sign := if Qle_bool 0 q then "" else "-" in
  let whole := str_int (n / scale) in
  match d with
  | O => sign ++ whole
  | _ => sign ++ whole ++ "." ++ zero_pad d (str_int (n mod scale))
  end.

(** Smallest number of decimals, at least one and at most [fuel], that
    represents [q] exactly; [fuel] when there is none. *)
Fixpoint decimals (fuel : nat) (d : nat) (q : Q) : nat :=
  match fuel with
  | O => d
  | S k =>
      if Qeq_bool (inject_Z (Qfloor (q * inject_Z (10 ^ Z.of_nat d))))
                  (q * inject_Z (10 ^ Z.of_nat d))
      then d else decimals k (S d) q
  end.

Definition str (q : Q) : string := fixed (decimals 16 1 q) q.

Definition gt (a b : Q) : bool := negb (Qle_bool a b).

#[export] Instance exact_num : PyNum Q.
Proof.
  refine {| of_int := inject_Z;
            num_div := Qdiv;
            num_mul := Qmult;
            num_add := Qplus;
            num_sub := Qminus;
            num_gt := gt;
            num_le := Qle_bool;
            num_fixed := fixed;
            num_str := str |}.
  - intros a b; unfold gt; now destruct (Qle_bool a b).
  - intros a b; unfold Qle_bool, inject_Z; simpl; now rewrite !Z.mul_1_r.
Defined.

End ExactNum.

(** ** Exceptions, results and the world *)

(** [ValueError] is what [print_statistics] and [int] raise (the error the
    specification calls InvalidMeasurement); [OSError] stands for
    [socket.error]. *)
Inductive exn : Type :=
| ValueError
| OSError.

(** Outcome of running a piece of the program: a value, a raised exception,
    or [Running] when the given number of loop iterations was not enough
    for the program to come back. *)
Inductive res (A : Type) : Type :=
| Ok (a : A)
| Raise (e : exn)
| Running.

Arguments Ok {A} a.
Arguments Raise {A} e.
Arguments Running {A}.

Definition address : Type := string * Z.

(** Everything observable that a session does, in program order. *)
Inductive event : Type :=
| Connected (peer : address)
| Sent (payload : list byte)
| Printed (line : string)
| Closed.

(** What the connection has in store for the next call on the socket:
    bytes for one [recv], a transport error for one [recv], or [Reset]: the
    peer has reset the connection, and the next call on the socket raises,
    [getpeername] as well as [recv]. *)
Inductive read : Type :=
| Data (payload : list byte)
| ReadError
| Reset.

(** ** [int(s)] on ASCII text

    Surrounding white space is dropped, one sign is allowed, and the rest
    must be decimal digits, with single underscores allowed between
    digits.  White space is the space and the five controls from tab to
    carriage return. *)

Definition is_space (c : ascii) : bool :=
  let n := nat_of_ascii c in
  ((9 <=? n) && (n <=? 13) || (n =? 32))%nat.

Definition digit_value (c : ascii) : option Z :=
  let n := nat_of_ascii c in
  if ((48 <=? n) && (n <=? 57))%nat then Some (Z.of_nat n - 48) else None.

Fixpoint lstrip (cs : list ascii) : list ascii :=
  match cs with
  | c :: cs' => if is_space c then lstrip cs' else cs
  | [] => []
  end.

Definition strip (cs : list ascii) : list ascii :=
  rev (lstrip (rev (lstrip cs))).

Fixpoint parse_digits (acc : Z) (after_digit : bool) (cs : list ascii)
  : option Z :=
  match cs with
  | [] => if after_digit then Some acc else None
  | c :: cs' =>
      match digit_value c with
      | Some d => parse_digits (10 * acc + d) true cs'
      | None =>
          if Ascii.eqb c "_" && after_digit
          then parse_digits acc false cs'
          else None
      end
  end.

Definition py_int (s : string) : res Z :=
  let cs := strip (list_ascii_of_string s) in
  let signed :=
    match cs with
    | "-"%char :: rest => option_map Z.opp (parse_digits 0 false rest)
    | "+"%char :: rest => parse_digits 0 false rest
    | _ => parse_digits 0 false cs
    end in
  match signed with
  | Some n => Ok n
  | None => Raise ValueError
  end.

(** ** Constants of the program *)

Definition CHUNK_SIZE : Z := 1000.

Definition BYE : list byte := ["B"; "Y"; "E"]%byte.

Definition ACK_BYE : list byte := list_byte_of_string "ACK:BYE".

Definition newline : string := String "010"%char "".

(** [f"{'Id':<16} {'Interval':<12} {'Received':<12} {'Rate':<12}"] *)
Definition header : string :=
  ljust 16 "Id" ++ " " ++ ljust 12 "Interval" ++ " "
  ++ ljust 12 "Received" ++ " " ++ ljust 12 "Rate".

(** [data[-k:]] *)
Definition last_bytes (k : nat) (data : list byte) : list byte :=
  skipn (length data - k) data.

Fixpoint bytes_eqb (a b : list byte) : bool :=
  match a, b with
  | [], [] => true
  | x :: a', y :: b' => Byte.eqb x y && bytes_eqb a' b'
  | _, _ => false
  end.

(** [data[-3:] == b'BYE'] *)
Definition ends_with_bye (data : list byte) : bool :=
  bytes_eqb (last_bytes 3 data) BYE.

(** [bytes_received] after the reads [reads], starting from [acc]
    (line 145, repeated). *)
Definition received (acc : Z) (reads : list (list byte)) : Z :=
  fold_left (fun n data => n + Z.of_nat (length data)) reads acc.

(** Truth value of an optional int ([None] and [0] are false). *)
Definition truthy_int (o : option Z) : bool :=
  match o with
  | Some i => negb (i =? 0)
  | None => false
  end.

(** Truth value of an optional string ([None] and [""] are false). *)
Definition truthy_str (o : option string) : bool :=
  match o with
  | Some s => negb (String.eqb s "")
  | None => false
  end.

(** Lines 224-228: the byte target from the [-n] argument. *)
Definition parse_num (s : string) : res Z :=
  match py_int (drop_last 2 s) with
  | Ok num_bytes =>
      if endswith s "KB" then Ok (num_bytes * CHUNK_SIZE)
      else if endswith s "MB" then Ok (num_bytes * (CHUNK_SIZE * CHUNK_SIZE))
      else Ok num_bytes
  | other => other
  end.

Section Simpleperf.

Context {num : Type} {python : PyNum num}.

(** The world answers the calls the program makes to its surroundings.
    [clock] lists the successive readings of [time.time()] and [ticks]
    counts the readings taken; [inbox] lists what the connection has in
    store for the successive [recv] calls, and once it is used up the peer
    has closed, so [recv] returns no bytes; [wire] tells which writes to the socket succeed and
    [writes] counts them; [reachable] tells whether [connect] succeeds;
    [peername] and [sockname] are the two ends of the connection. *)
Record world : Type := {
  clock : nat -> num;
  ticks : nat;
  inbox : list read;
  wire : nat -> bool;
  writes : nat;
  reachable : bool;
  peername : address;
  sockname : address;
  trace : list event
}.

Definition set_ticks (n : nat) (w : world) : world :=
  {| clock := clock w; ticks := n; inbox := inbox w; wire := wire w;
     writes := writes w; reachable := reachable w; peername := peername w;
     sockname := sockname w; trace := trace w |}.

Definition set_inbox (l : list read) (w : world) : world :=
  {| clock := clock w; ticks := ticks w; inbox := l; wire := wire w;
     writes := writes w; reachable := reachable w; peername := peername w;
     sockname := sockname w; trace := trace w |}.

Definition set_writes (n : nat) (w : world) : world :=
  {| clock := clock w; ticks := ticks w; inbox := inbox w; wire := wire w;
     writes := n; reachable := reachable w; peername := peername w;
     sockname := sockname w; trace := trace w |}.

Definition set_trace (t : list event) (w : world) : world :=
  {| clock := clock w; ticks := ticks w; inbox := inbox w; wire := wire w;
     writes := writes w; reachable := reachable w; peername := peername w;
     sockname := sockname w; trace := t |}.

(** [record e w]: the world after [e] has happened. *)
Definition record (e : event) (w : world) : world :=
  set_trace (trace w ++ [e])%list w.

(** *** The monad of effects *)

Definition M (A : Type) : Type := world -> res A * world.

Definition ret {A : Type} (a : A) : M A := fun w => (Ok a, w).

Definition raise {A : Type} (e : exn) : M A := fun w => (Raise e, w).

Definition running {A : Type} : M A := fun w => (Running, w).

Definition bind {A B : Type} (m : M A) (k : A -> M B) : M B :=
  fun w =>
    match m w with
    | (Ok a, w') => k a w'
    | (Raise e, w') => (Raise e, w')
    | (Running, w') => (Running, w')
    end.

Definition lift {A : Type} (r : res A) : M A := fun w => (r, w).

(** [try: body finally: cleanup].  The clean-up runs when the body
    returns or raises, and the body's outcome is kept unless the clean-up
    raises itself; a body that is still running has not reached it. *)
Definition finally {A : Type} (body : M A) (cleanup : M unit) : M A :=
  fun w =>
    match body w with
    | (Running, w') => (Running, w')
    | (r, w') =>
        match cleanup w' with
        | (Ok _, w'') => (r, w'')
        | (Raise e, w'') => (Raise e, w'')
        | (Running, w'') => (Running, w'')
        end
    end.

Notation "x <- m ;; k" := (bind m (fun x => k))
  (at level 61, m at next level, right associativity).
Notation "m ;; k" := (bind m (fun _ => k))
  (at level 61, right associativity).

(** *** Calls to the surroundings *)

Definition print (line : string) : M unit :=
  fun w => (Ok tt, record (Printed line) w).

Definition time_time : M num :=
  fun w => (Ok (clock w (ticks w)), set_ticks (S (ticks w)) w).

Definition sock_connect (peer : address) : M unit :=
  fun w =>
    if reachable w then (Ok tt, record (Connected peer) w)
    else (Raise OSError, w).

(** [send] and [sendall]: the payload goes out, or the call raises. *)
Definition sock_send (payload : list byte) : M unit :=
  fun w =>
    let w' := set_writes (S (writes w)) w in
    if wire w (writes w) then (Ok tt, record (Sent payload) w')
    else (Raise OSError, w').

Definition sock_recv (bufsize : Z) : M (list byte) :=
  fun w =>
    match inbox w with
    | [] => (Ok [], w)
    | Data payload :: rest => (Ok payload, set_inbox rest w)
    | ReadError :: rest => (Raise OSError, set_inbox rest w)
    | Reset :: rest => (Raise OSError, set_inbox rest w)
    end.

Definition sock_close : M unit :=
  fun w => (Ok tt, record Closed w).

(** Raises on a socket that is not connected any more. *)
Definition getpeername : M address :=
  fun w =>
    match inbox w with
    | Reset :: _ => (Raise OSError, w)
    | _ => (Ok (peername w), w)
    end.

Definition getsockname : M address := fun w => (Ok (sockname w), w).

(** ** [print_statistics] (lines 8-55) *)

(** The four strings the function builds before printing them. *)
Record StatRecord : Type := {
  rec_id : string;
  rec_interval : string;
  rec_bytes_transfered : string;
  rec_bandwidth : string
}.

(** Lines 38-52. *)
Definition stat_record (client_address : address)
    (bytes_sent interval_number : Z) (interval_size : num) (format : string)
  : StatRecord :=
  let chunk := of_int CHUNK_SIZE in
  let bytes_transfered :=
    if String.eqb format "B" then str_int bytes_sent ++ " B"
    else if String.eqb format "KB" then
      num_fixed 0 (num_div (of_int bytes_sent) chunk) ++ " KB"
    else
      num_fixed 2 (num_div (num_div (of_int bytes_sent) chunk) chunk)
      ++ " MB" in
  let id := fst client_address ++ ":" ++ str_int (snd client_address) in
  let interval :=
    num_fixed 1 (num_mul (of_int interval_number) interval_size)
    ++ " - "
    ++ num_fixed 1
         (num_add (num_mul (of_int interval_number) interval_size)
                  interval_size) in
  let bandwidth :=
    num_fixed 1
      (num_mul
         (num_div (num_div (num_div (of_int bytes_sent) chunk) chunk)
                  interval_size)
         (of_int 8))
    ++ " Mbps" in
  {| rec_id := id;
     rec_interval := interval;
     rec_bytes_transfered := bytes_transfered;
     rec_bandwidth := bandwidth |}.

(** Line 55: the printed line. *)
Definition stat_line (r : StatRecord) : string :=
  ljust 16 (rec_id r) ++ " " ++ ljust 12 (rec_interval r) ++ " "
  ++ ljust 12 (rec_bytes_transfered r) ++ " " ++ ljust 12 (rec_bandwidth r).

Definition print_statistics (client_address : address)
    (bytes_sent interval_number : Z) (interval_size : num) (format : string)
  : M unit :=
  if (bytes_sent <? 0) || num_le interval_size (of_int 0) then
    raise ValueError
  else
    print (stat_line (stat_record client_address bytes_sent interval_number
                                  interval_size format)).

(** ** [handle_client] (lines 111-162) *)

(** The [while True] loop of lines 141-159; [fuel] bounds the number of
    iterations that are run. *)
Fixpoint receive (fuel : nat) (client_address : address) (start_time : num)
    (format : string) (bytes_received : Z) : M unit :=
  match fuel with
  | O => running
  | S fuel' =>
      data <- sock_recv CHUNK_SIZE ;;
      let bytes_received := bytes_received + Z.of_nat (length data) in
      if ends_with_bye data then
        sock_send ACK_BYE ;;
        now <- time_time ;;
        let end_time := num_sub now start_time in
        print (newline ++ header) ;;
        print_statistics client_address bytes_received 0 end_time format
      else
        receive fuel' client_address start_time format bytes_received
  end.

(** [format] is the global [args.format].  Lines 136 and 137 come before
    the [try] of line 139: when [getpeername] raises, the [finally] clause
    is not run. *)
Definition handle_client (fuel : nat) (format : string) : M unit :=
  let bytes_received := 0 in
  client_address <- getpeername ;;
  start_time <- time_time ;;
  finally (receive fuel client_address start_time format bytes_received)
          sock_close.

(** ** [client] (lines 164-263) *)

Record Args : Type := {
  arg_serverip : string;
  arg_port : Z;
  arg_time : num;
  arg_interval : option Z;
  arg_format : string;
  arg_num : option string
}.

(** The variables the sending loop updates. *)
Record sender : Type := {
  total_bytes_sent : Z;
  interval_sent : Z;
  total_time : num;
  interval_number : Z;
  last_interval_start_time : num
}.

(** Lines 211-216. *)
Definition sender_init (start_time : num) : sender :=
  {| total_bytes_sent := 0;
     interval_sent := 0;
     total_time := of_int 0;
     interval_number := 0;
     last_interval_start_time := start_time |}.

(** Line 238: [total_bytes_sent += CHUNK_SIZE]. *)
Definition add_total (st : sender) : sender :=
  {| total_bytes_sent := total_bytes_sent st + CHUNK_SIZE;
     interval_sent := interval_sent st;
     total_time := total_time st;
     interval_number := interval_number st;
     last_interval_start_time := last_interval_start_time st |}.

(** Line 239: [interval_sent += CHUNK_SIZE]. *)
Definition add_interval (st : sender) : sender :=
  {| total_bytes_sent := total_bytes_sent st;
     interval_sent := interval_sent st + CHUNK_SIZE;
     total_time := total_time st;
     interval_number := interval_number st;
     last_interval_start_time := last_interval_start_time st |}.

(** Line 240. *)
Definition set_total_time (t : num) (st : sender) : sender :=
  {| total_bytes_sent := total_bytes_sent st;
     interval_sent := interval_sent st;
     total_time := t;
     interval_number := interval_number st;
     last_interval_start_time := last_interval_start_time st |}.

(** Line 246: [interval_number += 1]. *)
Definition next_interval (st : sender) : sender :=
  {| total_bytes_sent := total_bytes_sent st;
     interval_sent := interval_sent st;
     total_time := total_time st;
     interval_number := interval_number st + 1;
     last_interval_start_time := last_interval_start_time st |}.

(** Line 247: [interval_sent = 0]. *)
Definition reset_interval (st : sender) : sender :=
  {| total_bytes_sent := total_bytes_sent st;
     interval_sent := 0;
     total_time := total_time st;
     interval_number := interval_number st;
     last_interval_start_time := last_interval_start_time st |}.

(** Line 248. *)
Definition set_last_interval_start_time (t : num) (st : sender) : sender :=
  {| total_bytes_sent := total_bytes_sent st;
     interval_sent := interval_sent st;
     total_time := total_time st;
     interval_number := interval_number st;
     last_interval_start_time := t |}.

(** Line 210: [b'0' * CHUNK_SIZE]. *)
Definition chunk_data : list byte := repeat "0"%byte (Z.to_nat CHUNK_SIZE).

(** The two limits of line 233.  [num_bytes] is bound exactly when
    [args.num] is true, so [None] is never inspected. *)
Definition time_exceeded (args : Args) (st : sender) : bool :=
  num_gt (total_time st) (arg_time args).

Definition bytes_exceeded (args : Args) (num_bytes : option Z) (st : sender)
  : bool :=
  truthy_str (arg_num args)
  && match num_bytes with
     | Some n => total_bytes_sent st >? n
     | None => false
     end.

(** Line 233. *)
Definition limit_reached (args : Args) (num_bytes : option Z) (st : sender)
  : bool :=
  time_exceeded args st || bytes_exceeded args num_bytes st.

(** Line 244: [interval_duration and time_since_last_interval >
    interval_duration]. *)
Definition interval_ended (interval_duration : option Z)
    (time_since_last_interval : num) : bool :=
  match interval_duration with
  | Some i => negb (i =? 0) && num_gt time_since_last_interval (of_int i)
  | None => false
  end.

(** The interval length handed to [print_statistics]; [None] never gets
    there, because both calls are guarded by [if interval_duration]. *)
Definition interval_length (interval_duration : option Z) : num :=
  match interval_duration with
  | Some i => of_int i
  | None => of_int 0
  end.

(** Lines 237-248: one iteration after the check of line 233. *)
Definition loop_body (args : Args) (client_address : address)
    (start_time : num) (st : sender) : M sender :=
  let interval_duration := arg_interval args in
  sock_send chunk_data ;;
  let st := add_total st in
  let st := add_interval st in
  t <- time_time ;;
  let st := set_total_time (num_sub t start_time) st in
  t <- time_time ;;
  let time_since_last_interval := num_sub t (last_interval_start_time st) in
  if interval_ended interval_duration time_since_last_interval then
    print_statistics client_address (interval_sent st) (interval_number st)
                     (interval_length interval_duration) (arg_format args) ;;
    let st := next_interval st in
    let st := reset_interval st in
    t <- time_time ;;
    ret (set_last_interval_start_time t st)
  else
    ret st.

(** Lines 231-248. *)
Fixpoint client_loop (fuel : nat) (args : Args) (client_address : address)
    (start_time : num) (num_bytes : option Z) (st : sender) : M sender :=
  match fuel with
  | O => running
  | S fuel' =>
      if limit_reached args num_bytes st then ret st
      else
        st' <- loop_body args client_address start_time st ;;
        client_loop fuel' args client_address start_time num_bytes st'
  end.

(** Lines 251-253: the statistics of the last interval. *)
Definition flush_last_interval (args : Args) (client_address : address)
    (st : sender) : M unit :=
  let interval_duration := arg_interval args in
  if truthy_int interval_duration then
    print_statistics client_address (interval_sent st) (interval_number st)
                     (interval_length interval_duration) (arg_format args) ;;
    print (repeat_string 60 "-")
  else
    ret tt.

(** Lines 223-228. *)
Definition read_num_bytes (args : Args) : M (option Z) :=
  match arg_num args with
  | Some s =>
      if truthy_str (arg_num args) then
        n <- lift (parse_num s) ;;
        ret (Some n)
      else ret None
  | None => ret None
  end.

Definition client (fuel : nat) (args : Args) : M unit :=
  sock_connect (arg_serverip args, arg_port args) ;;
  client_address <- getsockname ;;
  let interval_duration := arg_interval args in
  print (fst client_address ++ ":" ++ str_int (snd client_address)
         ++ " connected with " ++ arg_serverip args ++ " port "
         ++ str_int (arg_port args)) ;;
  sock_send (list_byte_of_string ("START " ++ num_str (arg_time args))) ;;
  start_time <- time_time ;;
  let st := sender_init start_time in
  (if truthy_int interval_duration then print header else ret tt) ;;
  num_bytes <- read_num_bytes args ;;
  st <- client_loop fuel args client_address start_time num_bytes st ;;
  flush_last_interval args client_address st ;;
  sock_send BYE ;;
  ack <- sock_recv 1024 ;;
  sock_close ;;
  print (newline ++ header) ;;
  print_statistics client_address (total_bytes_sent st) 0 (total_time st)
                   (arg_format args).

(** The state at the head of the loop after [k] iterations, when no limit
    is looked at. *)
Fixpoint iterations (k : nat) (args : Args) (client_address : address)
    (start_time : num) (st : sender) : M sender :=
  match k with
  | O => ret st
  | S k' =>
      st' <- loop_body args client_address start_time st ;;
      iterations k' args client_address start_time st'
  end.

(** The values the loop variables take during one iteration that starts
    in [st], in program order: after lines 238, 239 and 240 and, when the
    interval has ended, after lines 246, 247 and 248. *)
Definition body_states (elapsed restarted : num) (st : sender)
  : list sender :=
  let s1 := add_total st in
  let s2 := add_interval s1 in
  let s3 := set_total_time elapsed s2 in
  let s4 := next_interval s3 in
  let s5 := reset_interval s4 in
  let s6 := set_last_interval_start_time restarted s5 in
  [s1; s2; s3; s4; s5; s6].

(** The bytes of the current interval are among the bytes sent. *)
Definition sent_ok (st : sender) : Prop :=
  interval_sent st <= total_bytes_sent st.

(** The invariant of the loop: moreover the interval counter is not
    negative. *)
Definition counters_ok (st : sender) : Prop :=
  0 <= interval_sent st /\ sent_ok st.

(** [m] may print and send, but does not close the socket. *)
Definition keeps_open {A : Type} (m : M A) : Prop :=
  forall w r w',
    m w = (r, w') ->
    exists events,
      trace w' = (trace w ++ events)%list /\ ~ In Closed events.

End Simpleperf.

Arguments world num : clear implicits.
Arguments M num A : clear implicits.
Arguments Args num : clear implicits.
Arguments sender num : clear implicits.

Notation "x <- m ;; k" := (bind m (fun x => k))
  (at level 61, m at next level, right associativity).
Notation "m ;; k" := (bind m (fun _ => k))
  (at level 61, right associativity).

(** ** What a trace shows *)

(** The payloads written to the socket, in order. *)
Definition sent_payloads (t : list event) : list (list byte) :=
  flat_map (fun e => match e with Sent payload => [payload] | _ => [] end) t.

(** The lines printed, in order. *)
Definition printed (t : list event) : list string :=
  flat_map (fun e => match e with Printed line => [line] | _ => [] end) t.

Definition sum_bytes (counts : list Z) : Z := fold_right Z.add 0 counts.

Section Reports.

Context {num : Type} {python : PyNum num}.

(** The lines of successive interval reports, numbered from [first], for
    the byte counts [counts] (line 245, repeated). *)
Fixpoint interval_lines (client_address : address) (interval_size : num)
    (format : string) (first : Z) (counts : list Z) : list string :=
  match counts with
  | [] => []
  | count :: counts' =>
      stat_line (stat_record client_address count first interval_size format)
      :: interval_lines client_address interval_size format (first + 1)
           counts'
  end.

(** [m] closes the socket only after it has sent the marker, and not at
    all when it ends in a transport error or is still running. *)
Definition closes_after_bye {A : Type} (m : M num A) : Prop :=
  forall w r w',
    m w = (r, w') ->
    exists events,
      trace w' = (trace w ++ events)%list
      /\ (In Closed events -> In (Sent BYE) events)
      /\ (r = Raise OSError \/ r = Running -> ~ In Closed events).

End Reports.

(** ** [server] (lines 57-108), the listening thread

    The listening thread binds, announces itself and accepts connections
    for ever, starting one thread on [handle_client] for each.  What the
    listening thread itself does is modelled; the handler threads run on
    their own. *)

(** What one [accept] call returns. *)
Inductive incoming : Type :=
| Incoming (peer : address)
| AcceptError.

(** The surroundings of the listening thread: whether [bind] succeeds, and
    what the successive [accept] calls return; once the list is used up,
    [accept] blocks. *)
Record listener : Type := {
  can_bind : bool;
  backlog : list incoming
}.

(** What the listening thread does: print a line, start a thread on
    [handle_client] for the connection of [peer], close the listening
    socket (the end of the [with] block). *)
Inductive server_event : Type :=
| Said (line : string)
| Started (peer : address)
| Unbound.

Definition dashes : string := repeat_string 59 "-".

(** Lines 95-97. *)
Definition banner (bind : string) (port : Z) : list server_event :=
  [Said dashes;
   Said ("A simpleperf server listening on " ++ bind ++ ", port "
         ++ str_int port);
   Said (dashes ++ newline)].

(** Line 104. *)
Definition connected_line (bind : string) (port : Z) (peer : address)
  : string :=
  "A simpleperf client with " ++ fst peer ++ ":" ++ str_int (snd peer)
  ++ " is connected with " ++ bind ++ ":" ++ str_int port.

(** What the listening thread does for the connections of [peers]. *)
Definition served (bind : string) (port : Z) (peers : list address)
  : list server_event :=
  flat_map
    (fun peer => [Said (connected_line bind port peer); Started peer]) peers.

(** Lines 100-108. *)
Fixpoint accept_loop (fuel : nat) (bind : string) (port : Z)
    (queue : list incoming) : res unit * list server_event :=
  match fuel with
  | O => (Running, [])
  | S fuel' =>
      match queue with
      | [] => (Running, [])
      | AcceptError :: _ => (Raise OSError, [])
      | Incoming peer :: queue' =>
          let (r, events) := accept_loop fuel' bind port queue' in
          (r, Said (connected_line bind port peer) :: Started peer :: events)
      end
  end.

(** Lines 86-108. *)
Definition server (fuel : nat) (bind : string) (port : Z) (l : listener)
  : res unit * list server_event :=
  if can_bind l then
    match accept_loop fuel bind port (backlog l) with
    | (Running, events) => (Running, banner bind port ++ events)%list
    | (r, events) => (r, banner bind port ++ events ++ [Unbound])%list
    end
  else (Raise OSError, [Unbound]).

(** ** Concrete sessions

    Sessions over the exact rationals, on which the model is run. *)

Module Session.

Import ExactNum.

Definition client_end : address := ("127.0.0.1", 50000).

(** A clock that advances by half a second at every reading. *)
Definition half_seconds (n : nat) : Q := inject_Z (Z.of_nat n) * (1 # 2).

(** A clock that does not advance. *)
Definition frozen (n : nat) : Q := 0.

Definition quiet (readings : nat -> Q) (reads : list read) : world Q :=
  {| clock := readings; ticks := 0; inbox := reads;
     wire := fun _ => true; writes := 0; reachable := true;
     peername := client_end; sockname := client_end; trace := [] |}.

(** Three chunks, then the marker in a read of its own. *)
Definition three_chunks : list read :=
  [Data chunk_data; Data chunk_data; Data chunk_data; Data BYE].

(** One second of sending, reported every second. *)
Definition timed : Args Q :=
  {| arg_serverip := "127.0.0.1"; arg_port := 8088; arg_time := 1 # 1;
     arg_interval := Some 1; arg_format := "B"; arg_num := None |}.

(** A byte target and no reporting interval. *)
Definition counted : Args Q :=
  {| arg_serverip := "127.0.0.1"; arg_port := 8088; arg_time := 25 # 1;
     arg_interval := None; arg_format := "B"; arg_num := Some "3000B" |}.

(** The world of a sender whose peer answers the marker. *)
Definition answered : world Q := quiet half_seconds [Data ACK_BYE].

(** The same world once the sender has read its start time. *)
Definition started : world Q := set_ticks 1 answered.

(** The sending loops of the two senders, from their first iteration. *)
Definition timed_loop : res (sender Q) * world Q :=
  client_loop 10 timed client_end (half_seconds 0) None
              (sender_init (half_seconds 0)) started.

Definition counted_loop : res (sender Q) * world Q :=
  client_loop 10 counted client_end (half_seconds 0) (Some 300)
              (sender_init (half_seconds 0)) started.

(** The states in which the two loops are left. *)
Definition timed_end : sender Q :=
  {| total_bytes_sent := 2000; interval_sent := 0; total_time := 6 # 4;
     interval_number := 1; last_interval_start_time := 5 # 2 |}.

Definition counted_end : sender Q :=
  {| total_bytes_sent := 1000; interval_sent := 1000; total_time := 2 # 4;
     interval_number := 0; last_interval_start_time := 0 # 2 |}.

(** A receiver whose peer fails after one chunk. *)
Definition broken : world Q := quiet half_seconds [Data chunk_data; ReadError].

End Session.

(** ** Further sessions *)

Module Scenario.

Import ExactNum Session.

(** A receiver whose writes fail. *)
Definition deaf : world Q :=
  {| clock := half_seconds; ticks := 0; inbox := three_chunks;
     wire := fun _ => false; writes := 0; reachable := true;
     peername := client_end; sockname := client_end; trace := [] |}.

(** A sender whose connection breaks after the handshake and one chunk. *)
Definition cut : world Q :=
  {| clock := half_seconds; ticks := 0; inbox := [Data ACK_BYE];
     wire := fun n => (n <? 2)%nat; writes := 0; reachable := true;
     peername := client_end; sockname := client_end; trace := [] |}.

(** A target of three chunks. *)
Definition three_kb : Args Q :=
  {| arg_serverip := "127.0.0.1"; arg_port := 8088; arg_time := 25 # 1;
     arg_interval := None; arg_format := "KB"; arg_num := Some "3KB" |}.

Definition three_kb_loop : res (sender Q) * world Q :=
  client_loop 10 three_kb client_end (half_seconds 0) (Some 3000)
              (sender_init (half_seconds 0)) started.

(** The state in which that loop is left: four chunks sent. *)
Definition three_kb_end : sender Q :=
  {| total_bytes_sent := 4000; interval_sent := 4000; total_time := 14 # 4;
     interval_number := 0; last_interval_start_time := 0 # 2 |}.

(** A target too short to hold a number. *)
Definition five_b : Args Q :=
  {| arg_serverip := "127.0.0.1"; arg_port := 8088; arg_time := 25 # 1;
     arg_interval := None; arg_format := "B"; arg_num := Some "5B" |}.

Definition two_peers : list address :=
  [("10.0.0.1", 40000); ("10.0.0.2", 40001)].

(** The receiver of the sender [counted]: it reads what that sender
    wrote, one read for each write. *)
Definition mirrored : world Q :=
  quiet half_seconds
    (map Data (sent_payloads (trace (snd (client 10 counted answered))))).

End Scenario.

(** * Properties *)

Section Properties.

Context {num : Type} {python : PyNum num}.

Implicit Types (w : world num) (st : sender num) (args : Args num).

(** ** Reading the world after an update *)

Lemma clock_set_ticks n w : clock (set_ticks n w) = clock w.
Proof. reflexivity. Qed.

Lemma ticks_set_ticks n w : ticks (set_ticks n w) = n.
Proof. reflexivity. Qed.

Lemma inbox_set_ticks n w : inbox (set_ticks n w) = inbox w.
Proof. reflexivity. Qed.

Lemma wire_set_ticks n w : wire (set_ticks n w) = wire w.
Proof. reflexivity. Qed.

Lemma writes_set_ticks n w : writes (set_ticks n w) = writes w.
Proof. reflexivity. Qed.

Lemma trace_set_ticks n w : trace (set_ticks n w) = trace w.
Proof. reflexivity. Qed.

Lemma clock_set_inbox l w : clock (set_inbox l w) = clock w.
Proof. reflexivity. Qed.

Lemma ticks_set_inbox l w : ticks (set_inbox l w) = ticks w.
Proof. reflexivity. Qed.

Lemma inbox_set_inbox l w : inbox (set_inbox l w) = l.
Proof. reflexivity. Qed.

Lemma wire_set_inbox l w : wire (set_inbox l w) = wire w.
Proof. reflexivity. Qed.

Lemma writes_set_inbox l w : writes (set_inbox l w) = writes w.
Proof. reflexivity. Qed.

Lemma trace_set_inbox l w : trace (set_inbox l w) = trace w.
Proof. reflexivity. Qed.

Lemma clock_set_writes n w : clock (set_writes n w) = clock w.
Proof. reflexivity. Qed.

Lemma ticks_set_writes n w : ticks (set_writes n w) = ticks w.
Proof. reflexivity. Qed.

Lemma inbox_set_writes n w : inbox (set_writes n w) = inbox w.
Proof. reflexivity. Qed.

Lemma wire_set_writes n w : wire (set_writes n w) = wire w.
Proof. reflexivity. Qed.

Lemma writes_set_writes n w : writes (set_writes n w) = n.
Proof. reflexivity. Qed.

Lemma trace_set_writes n w : trace (set_writes n w) = trace w.
Proof. reflexivity. Qed.

Lemma clock_set_trace t w : clock (set_trace t w) = clock w.
Proof. reflexivity. Qed.

Lemma ticks_set_trace t w : ticks (set_trace t w) = ticks w.
Proof. reflexivity. Qed.

Lemma inbox_set_trace t w : inbox (set_trace t w) = inbox w.
Proof. reflexivity. Qed.

Lemma wire_set_trace t w : wire (set_trace t w) = wire w.
Proof. reflexivity. Qed.

Lemma writes_set_trace t w : writes (set_trace t w) = writes w.
Proof. reflexivity. Qed.

Lemma trace_set_trace t w : trace (set_trace t w) = t.
Proof. reflexivity. Qed.

Lemma clock_record e w : clock (record e w) = clock w.
Proof. reflexivity. Qed.

Lemma ticks_record e w : ticks (record e w) = ticks w.
Proof. reflexivity. Qed.

Lemma inbox_record e w : inbox (record e w) = inbox w.
Proof. reflexivity. Qed.

Lemma wire_record e w : wire (record e w) = wire w.
Proof. reflexivity. Qed.

Lemma writes_record e w : writes (record e w) = writes w.
Proof. reflexivity. Qed.

Lemma trace_record e w : trace (record e w) = (trace w ++ [e])%list.
Proof. reflexivity. Qed.

Lemma record_twice e1 e2 w :
  record e2 (record e1 w) = set_trace (trace w ++ [e1; e2])%list w.
Proof.
  destruct w; unfold record, set_trace; cbn.
  now rewrite <- app_assoc.
Qed.

Create Rewrite HintDb world.

Hint Rewrite
  @clock_set_ticks @ticks_set_ticks @inbox_set_ticks @wire_set_ticks
  @writes_set_ticks @trace_set_ticks @clock_set_inbox @ticks_set_inbox
  @inbox_set_inbox @wire_set_inbox @writes_set_inbox @trace_set_inbox
  @clock_set_writes @ticks_set_writes @inbox_set_writes @wire_set_writes
  @writes_set_writes @trace_set_writes @clock_set_trace @ticks_set_trace
  @inbox_set_trace @wire_set_trace @writes_set_trace @trace_set_trace
  @clock_record @ticks_record @inbox_record @wire_record
  @writes_record @trace_record
  : world.

Ltac world_simpl := autorewrite with world.

(** ** The monad *)

Lemma bind_ok {A B : Type} (m : M num A) (k : A -> M num B) w a w' :
  m w = (Ok a, w') -> bind m k w = k a w'.
Proof. unfold bind; now intros ->. Qed.

Lemma bind_inv_ok {A B : Type} (m : M num A) (k : A -> M num B) w b w'' :
  bind m k w = (Ok b, w'') ->
  exists a w', m w = (Ok a, w') /\ k a w' = (Ok b, w'').
Proof.
  unfold bind; destruct (m w) as [[a | e |] w'] eqn:E; try discriminate.
  intros Hk; now exists a, w'.
Qed.

(** ** [print_statistics] *)

Lemma print_statistics_passes addr b n (t : num) fmt w :
  0 <= b -> num_le t (of_int 0) = false ->
  print_statistics addr b n t fmt w
  = (Ok tt, record (Printed (stat_line (stat_record addr b n t fmt))) w).
Proof.
  intros Hb Ht; unfold print_statistics.
  rewrite Ht, orb_false_r.
  now destruct (Z.ltb_spec b 0); [lia |].
Qed.

Lemma print_statistics_valid addr b n (t : num) fmt w :
  0 <= b -> num_gt t (of_int 0) = true ->
  print_statistics addr b n t fmt w
  = (Ok tt, record (Printed (stat_line (stat_record addr b n t fmt))) w).
Proof.
  intros Hb Ht; apply print_statistics_passes; [easy |].
  now apply num_gt_not_le.
Qed.

Lemma print_statistics_invalid addr b n (t : num) fmt w :
  b < 0 \/ num_le t (of_int 0) = true ->
  print_statistics addr b n t fmt w = (Raise ValueError, w).
Proof.
  intros [Hb | Ht]; unfold print_statistics.
  - now destruct (Z.ltb_spec b 0); [| lia].
  - now rewrite Ht, orb_true_r.
Qed.

(** The printed line, column by column. *)
Lemma stat_line_columns addr b n (t : num) format :
  stat_line (stat_record addr b n t format)
  = ljust 16 (fst addr ++ ":" ++ str_int (snd addr)) ++ " "
    ++ ljust 12
         (num_fixed 1 (num_mul (of_int n) t) ++ " - "
          ++ num_fixed 1 (num_add (num_mul (of_int n) t) t))
    ++ " "
    ++ ljust 12
         (if String.eqb format "B" then str_int b ++ " B"
          else if String.eqb format "KB" then
            num_fixed 0 (num_div (of_int b) (of_int 1000)) ++ " KB"
          else
            num_fixed 2 (num_div (num_div (of_int b) (of_int 1000))
                                 (of_int 1000))
            ++ " MB")
    ++ " "
    ++ ljust 12
         (num_fixed 1
            (num_mul
               (num_div
                  (num_div (num_div (of_int b) (of_int 1000)) (of_int 1000))
                  t)
               (of_int 8))
          ++ " Mbps").
Proof. reflexivity. Qed.

(** The branch on the display unit (lines 38-43). *)
Lemma unit_cases (format in_b in_kb in_mb : string) :
  (format = "B" ->
   (if String.eqb format "B" then in_b
    else if String.eqb format "KB" then in_kb else in_mb) = in_b)
  /\ (format = "KB" ->
      (if String.eqb format "B" then in_b
       else if String.eqb format "KB" then in_kb else in_mb) = in_kb)
  /\ (format <> "B" -> format <> "KB" ->
      (if String.eqb format "B" then in_b
       else if String.eqb format "KB" then in_kb else in_mb) = in_mb).
Proof.
  destruct (String.eqb_spec format "B") as [-> | Hb];
    [repeat split; easy |].
  destruct (String.eqb_spec format "KB") as [-> | Hkb]; repeat split; easy.
Qed.

(** C1.  For every endpoint, byte count [b >= 0], interval [t > 0] and
    display unit among B, KB and MB, [print_statistics] prints one line of
    four columns, whatever the world it is called in.  The fourth column,
    the bandwidth, is [b / 1000 / 1000 / t * 8] (that is, [b] over the
    square of the chunk size, over [t], times eight) formatted with one
    decimal and followed by the unit Mbps, left-justified in twelve
    characters.  The display unit decides the text of the third column
    only, so the bandwidth column is the same for the three units; the
    line is a function of the five arguments. *)
Theorem bandwidth_field addr b n (t : num) format :
  0 <= b -> num_gt t (of_int 0) = true -> In format ["B"; "KB"; "MB"] ->
  exists amount : string,
    (format = "B" -> amount = str_int b ++ " B")
    /\ (format = "KB" ->
        amount = num_fixed 0 (num_div (of_int b) (of_int 1000)) ++ " KB")
    /\ (format = "MB" ->
        amount
        = num_fixed 2 (num_div (num_div (of_int b) (of_int 1000))
                               (of_int 1000))
          ++ " MB")
    /\ forall w,
         print_statistics addr b n t format w
         = (Ok tt,
            record
              (Printed
                 (ljust 16 (fst addr ++ ":" ++ str_int (snd addr)) ++ " "
                  ++ ljust 12
                       (num_fixed 1 (num_mul (of_int n) t) ++ " - "
                        ++ num_fixed 1 (num_add (num_mul (of_int n) t) t))
                  ++ " "
                  ++ ljust 12 amount
                  ++ " "
                  ++ ljust 12
                       (num_fixed 1
                          (num_mul
                             (num_div
                                (num_div
                                   (num_div (of_int b) (of_int 1000))
                                   (of_int 1000))
                                t)
                             (of_int 8))
                        ++ " Mbps")))
              w).
Proof.
  intros Hb Ht _.
  eexists; split; [| split; [| split]];
    [| | | intros w; rewrite print_statistics_valid by easy;
           rewrite stat_line_columns; reflexivity].
  - apply unit_cases.
  - apply unit_cases.
  - intros ->; reflexivity.
Qed.

(** C6.  When [bytes_sent < 0] or [interval_size <= 0], [print_statistics]
    raises [ValueError] and nothing has been printed or otherwise done;
    when [bytes_sent >= 0] and [interval_size > 0] it does not raise and
    prints its line. *)
Theorem invalid_measurement addr b n (t : num) fmt w :
  (b < 0 \/ num_le t (of_int 0) = true ->
   print_statistics addr b n t fmt w = (Raise ValueError, w))
  /\ (0 <= b /\ num_gt t (of_int 0) = true ->
      exists line,
        print_statistics addr b n t fmt w
        = (Ok tt, record (Printed line) w)).
Proof.
  split.
  - apply print_statistics_invalid.
  - intros [Hb Ht]; eexists; now apply print_statistics_valid.
Qed.

(** C7, as amended.  [print_statistics] returns no value.  It either
    raises [ValueError] and leaves the world as it was, or prints exactly
    one line, made of the four fields of the record, and changes nothing
    else: the clock, the socket and the earlier output are untouched. *)
Theorem print_statistics_effect addr b n (t : num) fmt w :
  print_statistics addr b n t fmt w = (Raise ValueError, w)
  \/ print_statistics addr b n t fmt w
     = (Ok tt, set_trace (trace w
                          ++ [Printed (stat_line
                                         (stat_record addr b n t fmt))])%list
                         w).
Proof.
  unfold print_statistics.
  destruct ((b <? 0) || num_le t (of_int 0)); [now left | now right].
Qed.

(** ** [handle_client] *)

Lemma bytes_eqb_eq (a b : list byte) : bytes_eqb a b = true <-> a = b.
Proof.
  revert b; induction a as [| x a IH]; intros [| y b]; simpl;
    try (split; [discriminate | discriminate || congruence]);
    try tauto.
  rewrite andb_true_iff, IH; split.
  - intros [Hxy ->]; now rewrite (byte_dec_bl _ _ Hxy).
  - intros [= -> ->]; split; [now apply byte_dec_lb | reflexivity].
Qed.

(** The test of line 147 is a suffix test on the bytes of one read. *)
Lemma ends_with_bye_suffix (data : list byte) :
  ends_with_bye data = true <-> exists before, data = (before ++ BYE)%list.
Proof.
  unfold ends_with_bye, last_bytes; rewrite bytes_eqb_eq; split.
  - intros Hs; exists (firstn (length data - 3) data).
    now rewrite <- Hs, firstn_skipn.
  - intros [before ->].
    rewrite length_app; simpl length.
    replace (length before + 3 - 3)%nat with (length before + 0)%nat by lia.
    now rewrite skipn_app, Nat.add_0_r, skipn_all, Nat.sub_diag.
Qed.

Lemma set_inbox_same w : set_inbox (inbox w) w = w.
Proof. now destruct w. Qed.

(** Reads that do not end in the marker are only counted. *)
Lemma receive_skip (ds : list (list byte)) :
  forall fuel addr start fmt acc rest w,
    Forall (fun d => ends_with_bye d = false) ds ->
    inbox w = (map Data ds ++ rest)%list ->
    receive (length ds + fuel) addr start fmt acc w
    = receive fuel addr start fmt (received acc ds) (set_inbox rest w).
Proof.
  induction ds as [| d ds IH]; intros fuel addr start fmt acc rest w Hds Hin.
  - simpl in *; now rewrite <- Hin, set_inbox_same.
  - inversion Hds as [| ? ? Hd Hds']; subst.
    simpl in Hin; cbn [length Nat.add receive].
    unfold bind at 1, sock_recv; rewrite Hin, Hd.
    now rewrite (IH fuel addr start fmt _ rest) by easy.
Qed.

Lemma received_app acc (ds : list (list byte)) d :
  received acc (ds ++ [d]) = received acc ds + Z.of_nat (length d).
Proof. unfold received; now rewrite fold_left_app. Qed.

Lemma received_ge acc (ds : list (list byte)) : acc <= received acc ds.
Proof.
  revert acc; unfold received.
  induction ds as [| d ds IH]; intros acc; simpl; [lia |].
  specialize (IH (acc + Z.of_nat (length d))); lia.
Qed.

Lemma received_concat (ds : list (list byte)) :
  forall acc, received acc ds = acc + Z.of_nat (length (concat ds)).
Proof.
  unfold received; induction ds as [| d ds IH]; intros acc; cbn.
  - lia.
  - rewrite IH, length_app; lia.
Qed.

Lemma no_marker (data : list byte) :
  ends_with_bye data = false
  <-> forall before, data <> (before ++ ["B"; "Y"; "E"]%byte)%list.
Proof.
  split.
  - intros Hd before Heq.
    assert (H : ends_with_bye data = true)
      by (apply ends_with_bye_suffix; exists before; exact Heq).
    congruence.
  - intros Hd; destruct (ends_with_bye data) eqn:E; [| reflexivity].
    apply ends_with_bye_suffix in E as [before ->]; now destruct (Hd before).
Qed.

(** [getpeername] returns unless the connection has been reset. *)
Lemma getpeername_connected w :
  (forall rest, inbox w <> Reset :: rest) ->
  getpeername w = (Ok (peername w), w).
Proof.
  unfold getpeername; destruct (inbox w) as [| [d | |] rest]; try reflexivity.
  intros H; now destruct (H rest).
Qed.

Lemma reads_not_reset (ds : list (list byte)) (rest : list read) :
  (forall rest', rest <> Reset :: rest') ->
  forall rest', (map Data ds ++ rest)%list <> Reset :: rest'.
Proof. intros H rest'; destruct ds; cbn; [apply H | discriminate]. Qed.

(** The state of the receiving loop once the reads [ds] have gone by. *)
Lemma handle_client_skip fuel fmt w (ds : list (list byte)) rest :
  Forall (fun d => ends_with_bye d = false) ds ->
  inbox w = (map Data ds ++ rest)%list ->
  (forall rest', rest <> Reset :: rest') ->
  handle_client (length ds + fuel) fmt w
  = finally
      (receive fuel (peername w) (clock w (ticks w)) fmt (received 0 ds))
      sock_close
      (set_inbox rest (set_ticks (S (ticks w)) w)).
Proof.
  intros Hds Hin Hrest.
  unfold handle_client, bind at 1.
  rewrite getpeername_connected by (rewrite Hin; now apply reads_not_reset).
  unfold bind at 1, time_time, finally.
  now rewrite (receive_skip ds _ _ _ _ _ rest).
Qed.

(** C3, as amended.  Let the reads of a session be [ds], none of which
    ends in the three bytes BYE, followed by a read [d] that does, and let
    the acknowledgement be written without error.  Then [handle_client]
    looks at no later read, and what it does is, in this order: send the
    seven bytes ACK:BYE, print the header and, when the time [elapsed]
    since the session started is greater than zero, print one record and
    close the socket.  The record is for the interval from [0 * elapsed]
    to [0 * elapsed + elapsed]; its byte count [total] is the number of
    bytes of all the reads, [d] and its marker included, shown in the
    display unit, and its bandwidth is [total / 1000 / 1000 / elapsed * 8].
    No other record is printed.  When the elapsed time is not above zero,
    [print_statistics] raises [ValueError] after the header: the session
    closes its socket and ends in that error, without any record. *)
Theorem marker_detected fuel fmt w (ds : list (list byte)) d before rest
    (total : Z) (elapsed : num) :
  inbox w = (map Data ds ++ Data d :: rest)%list ->
  Forall (fun x => forall p, x <> (p ++ ["B"; "Y"; "E"]%byte)%list) ds ->
  d = (before ++ ["B"; "Y"; "E"]%byte)%list ->
  wire w (writes w) = true ->
  (length ds < fuel)%nat ->
  total = Z.of_nat (length (concat (ds ++ [d]))) ->
  elapsed = num_sub (clock w (S (ticks w))) (clock w (ticks w)) ->
  (num_gt elapsed (of_int 0) = true ->
   exists (amount : string) w',
     (fmt = "B" -> amount = str_int total ++ " B")
     /\ (fmt = "KB" ->
         amount = num_fixed 0 (num_div (of_int total) (of_int 1000)) ++ " KB")
     /\ (fmt <> "B" -> fmt <> "KB" ->
         amount
         = num_fixed 2 (num_div (num_div (of_int total) (of_int 1000))
                                (of_int 1000))
           ++ " MB")
     /\ handle_client fuel fmt w = (Ok tt, w')
     /\ trace w'
        = (trace w
           ++ [Sent (list_byte_of_string "ACK:BYE");
               Printed (newline ++ header);
               Printed
                 (ljust 16
                    (fst (peername w) ++ ":" ++ str_int (snd (peername w)))
                  ++ " "
                  ++ ljust 12
                       (num_fixed 1 (num_mul (of_int 0) elapsed) ++ " - "
                        ++ num_fixed 1
                             (num_add (num_mul (of_int 0) elapsed) elapsed))
                  ++ " "
                  ++ ljust 12 amount
                  ++ " "
                  ++ ljust 12
                       (num_fixed 1
                          (num_mul
                             (num_div
                                (num_div
                                   (num_div (of_int total) (of_int 1000))
                                   (of_int 1000))
                                elapsed)
                             (of_int 8))
                        ++ " Mbps"));
               Closed])%list
     /\ inbox w' = rest)
  /\ (num_le elapsed (of_int 0) = true ->
      exists w',
        handle_client fuel fmt w = (Raise ValueError, w')
        /\ trace w'
           = (trace w
              ++ [Sent (list_byte_of_string "ACK:BYE");
                  Printed (newline ++ header);
                  Closed])%list
        /\ inbox w' = rest).
Proof.
  intros Hin Hds Hd Hwire Hfuel Htotal Helapsed.
  assert (Hds' : Forall (fun x => ends_with_bye x = false) ds)
    by (eapply Forall_impl; [| exact Hds]; intros x; apply no_marker).
  assert (Hd' : ends_with_bye d = true)
    by (apply ends_with_bye_suffix; now exists before).
  assert (Hcount : received 0 ds + Z.of_nat (length d) = total).
  { rewrite Htotal, concat_app, length_app, received_concat; cbn [concat].
    rewrite app_nil_r; lia. }
  replace fuel with (length ds + S (fuel - length ds - 1))%nat by lia.
  rewrite (handle_client_skip _ _ _ ds (Data d :: rest)) by easy.
  split; intros Ht;
    unfold finally; cbn [receive]; unfold bind at 1, sock_recv;
    rewrite inbox_set_inbox, Hd';
    unfold bind at 1, sock_send; world_simpl; rewrite Hwire;
    unfold bind at 1, time_time; world_simpl;
    unfold bind at 1, print;
    rewrite Hcount, <- Helapsed.
  - rewrite print_statistics_valid by (easy || lia).
    rewrite stat_line_columns; unfold sock_close.
    eexists _, _; split; [| split; [| split; [| split; [reflexivity |]]]];
      [apply unit_cases | apply unit_cases | apply unit_cases |].
    world_simpl; now rewrite <- !app_assoc.
  - rewrite print_statistics_invalid by (right; exact Ht).
    unfold sock_close.
    eexists; split; [reflexivity |]; world_simpl.
    now rewrite <- !app_assoc.
Qed.

Lemma receive_spins fuel :
  forall (ds : list (list byte)) addr start fmt acc w,
    Forall (fun d => ends_with_bye d = false) ds ->
    inbox w = map Data ds ->
    exists w',
      receive fuel addr start fmt acc w = (Running, w')
      /\ trace w' = trace w.
Proof.
  induction fuel as [| fuel IH]; intros ds addr start fmt acc w Hds Hin.
  - now exists w.
  - cbn [receive]; unfold bind at 1, sock_recv; rewrite Hin.
    destruct ds as [| d ds]; cbn [map].
    + change (ends_with_bye []) with false; cbv iota.
      now apply (IH []).
    + inversion Hds as [| ? ? Hd Hds']; subst; rewrite Hd.
      destruct (IH ds addr start fmt (acc + Z.of_nat (length d))
                   (set_inbox (map Data ds) w) Hds' eq_refl)
        as (w' & Hrun & Htrace).
      now exists w'.
Qed.

(** C4.  When the peer sends [ds], no read of which ends in the marker,
    and then closes, so that every later [recv] returns no bytes, the
    loop of [handle_client] is still running after any number of
    iterations: the session never returns, and it has sent no
    acknowledgement, printed no record and not closed its socket. *)
Theorem peer_closes_without_marker fuel fmt w (ds : list (list byte)) :
  inbox w = map Data ds ->
  Forall (fun d => ends_with_bye d = false) ds ->
  exists w',
    handle_client fuel fmt w = (Running, w') /\ trace w' = trace w.
Proof.
  intros Hin Hds.
  unfold handle_client, bind at 1.
  rewrite getpeername_connected by (rewrite Hin; destruct ds; cbn; easy).
  unfold bind at 1, time_time, finally.
  destruct (receive_spins fuel ds (peername w) (clock w (ticks w)) fmt 0
              (set_ticks (S (ticks w)) w) Hds Hin) as (w' & -> & Htrace).
  now exists w'.
Qed.

(** *** Nothing but the [finally] clause closes the socket *)

Lemma keeps_open_ret {A : Type} (a : A) : keeps_open (num := num) (ret a).
Proof. intros w r w' [= <- <-]; exists []; now rewrite app_nil_r. Qed.

Lemma keeps_open_raise {A : Type} e : keeps_open (num := num) (@raise _ A e).
Proof. intros w r w' [= <- <-]; exists []; now rewrite app_nil_r. Qed.

Lemma keeps_open_running {A : Type} : keeps_open (num := num) (@running _ A).
Proof. intros w r w' [= <- <-]; exists []; now rewrite app_nil_r. Qed.

Lemma keeps_open_bind {A B : Type} (m : M num A) (k : A -> M num B) :
  keeps_open m -> (forall a, keeps_open (k a)) -> keeps_open (bind m k).
Proof.
  intros Hm Hk w r w''; unfold bind.
  destruct (m w) as [[a | e |] w'] eqn:E;
    destruct (Hm _ _ _ E) as (ev1 & Ht1 & Hn1).
  - intros Hka; destruct (Hk a _ _ _ Hka) as (ev2 & Ht2 & Hn2).
    exists (ev1 ++ ev2)%list; rewrite Ht2, Ht1, app_assoc; split; [easy |].
    rewrite in_app_iff; tauto.
  - intros [= <- <-]; now exists ev1.
  - intros [= <- <-]; now exists ev1.
Qed.

Lemma keeps_open_print line : keeps_open (num := num) (print line).
Proof.
  intros w r w' [= <- <-]; exists [Printed line]; split; [easy |].
  now intros [[=] | []].
Qed.

Lemma keeps_open_time_time : keeps_open (num := num) time_time.
Proof. intros w r w' [= <- <-]; exists []; simpl; now rewrite app_nil_r. Qed.

Lemma keeps_open_sock_send payload :
  keeps_open (num := num) (sock_send payload).
Proof.
  intros w r w'; unfold sock_send; destruct (wire w (writes w));
    intros [= <- <-].
  - exists [Sent payload]; split; [easy |]; now intros [[=] | []].
  - exists []; simpl; now rewrite app_nil_r.
Qed.

Lemma keeps_open_sock_recv bufsize :
  keeps_open (num := num) (sock_recv bufsize).
Proof.
  intros w r w'; unfold sock_recv; destruct (inbox w) as [| [d | |] rest];
    intros [= <- <-]; exists []; simpl; now rewrite app_nil_r.
Qed.

Lemma keeps_open_print_statistics addr b n (t : num) fmt :
  keeps_open (print_statistics addr b n t fmt).
Proof.
  unfold print_statistics; destruct ((b <? 0) || num_le t (of_int 0)).
  - apply keeps_open_raise.
  - apply keeps_open_print.
Qed.

Lemma keeps_open_receive fuel :
  forall addr (start : num) fmt acc,
    keeps_open (receive fuel addr start fmt acc).
Proof.
  induction fuel as [| fuel IH]; intros addr start fmt acc; cbn [receive].
  - apply keeps_open_running.
  - apply keeps_open_bind; [apply keeps_open_sock_recv |]; intros data.
    destruct (ends_with_bye data); [| apply IH].
    repeat (apply keeps_open_bind; intros);
      auto using keeps_open_sock_send, keeps_open_time_time,
                 keeps_open_print, keeps_open_print_statistics.
Qed.

(** C9.  When the peer has reset the connection before the session
    starts, [getpeername] (line 136, before the [try]) raises: the session
    ends in the transport error having done nothing, so its socket is not
    closed. *)
Theorem reset_before_start fuel fmt w rest :
  inbox w = Reset :: rest ->
  exists w',
    handle_client fuel fmt w = (Raise OSError, w')
    /\ trace w' = trace w
    /\ ~ In Closed (skipn (length (trace w)) (trace w')).
Proof.
  intros Hin; exists w.
  unfold handle_client, bind at 1, getpeername; rewrite Hin.
  split; [reflexivity | split; [reflexivity |]].
  now rewrite skipn_all.
Qed.

(** X19.  Once [getpeername] has returned, the session is inside the
    [try]: whenever [handle_client] comes back, with a value or with an
    exception (after the marker and the summary, after a failed read,
    after a failed acknowledgement or after [print_statistics] raised),
    closing the socket is the last thing it did, and it did so once. *)
Theorem socket_closed_after_start fuel fmt w (r : res unit) w' :
  (forall rest, inbox w <> Reset :: rest) ->
  handle_client fuel fmt w = (r, w') ->
  r <> Running ->
  exists events,
    trace w' = (trace w ++ events ++ [Closed])%list /\ ~ In Closed events.
Proof.
  intros Hpeer; unfold handle_client, bind at 1.
  rewrite (getpeername_connected w Hpeer).
  unfold bind at 1, time_time, finally.
  destruct (receive fuel (peername w) (clock w (ticks w)) fmt 0
              (set_ticks (S (ticks w)) w)) as [r1 w1] eqn:E.
  destruct (keeps_open_receive _ _ _ _ _ _ _ _ E) as (events & Ht & Hn).
  destruct r1 as [[] | e |]; unfold sock_close; intros [= <- <-] Hr;
    try easy;
    exists events; world_simpl; cbn [trace] in Ht;
    now rewrite Ht, app_assoc.
Qed.

(** ** [client] *)

Section Sender.

Variables (args : Args num) (addr : address) (start : num).
Variable num_bytes : option Z.

(** An iteration ends in one of the states listed by [body_states]. *)
Lemma loop_body_states st w st' w' :
  loop_body args addr start st w = (Ok st', w') ->
  exists elapsed restarted,
    st' = nth 2 (body_states elapsed restarted st) st
    \/ st' = nth 5 (body_states elapsed restarted st) st.
Proof.
  unfold loop_body, bind at 1, sock_send.
  destruct (wire w (writes w)); [| discriminate].
  unfold bind at 1, time_time, bind at 1.
  match goal with
  | |- context [interval_ended ?i ?t] => destruct (interval_ended i t)
  end.
  - unfold bind at 1.
    match goal with
    | |- context [print_statistics ?a ?b ?n ?t ?f ?w0] =>
        destruct (print_statistics a b n t f w0) as [[[] | e |] w1]
    end; try discriminate.
    unfold bind, ret; intros [= <- <-].
    eexists _, _; right; reflexivity.
  - unfold ret; intros [= <- <-].
    eexists _, start; left; reflexivity.
Qed.

Lemma body_states_counters_ok elapsed restarted st :
  counters_ok st -> Forall counters_ok (body_states elapsed restarted st).
Proof.
  unfold counters_ok, sent_ok, body_states; intros Hst.
  repeat (apply Forall_cons; [cbn; unfold CHUNK_SIZE; lia |]); apply Forall_nil.
Qed.

Lemma loop_body_counters_ok st w st' w' :
  counters_ok st -> loop_body args addr start st w = (Ok st', w') ->
  counters_ok st'.
Proof.
  intros Hst Hbody.
  destruct (loop_body_states _ _ _ _ Hbody) as (t1 & t2 & [-> | ->]);
    revert Hst; unfold counters_ok, sent_ok; cbn; unfold CHUNK_SIZE; lia.
Qed.

(** A property kept by every iteration holds at every head of the
    loop. *)
Lemma iterations_invariant (P : sender num -> Prop) :
  (forall st w st' w',
      P st -> loop_body args addr start st w = (Ok st', w') -> P st') ->
  forall k st w st' w',
    P st -> iterations k args addr start st w = (Ok st', w') -> P st'.
Proof.
  intros Hstep; induction k as [| k IH]; intros st w st' w' Hst; cbn.
  - now intros [= <- <-].
  - intros Hk; apply bind_inv_ok in Hk as (s1 & w1 & Hbody & Hk).
    eapply IH; [| exact Hk]; eapply Hstep; eassumption.
Qed.

(** The loop returns exactly at the first head where line 233 holds. *)
Lemma client_loop_first_limit fuel :
  forall st w st' w',
    client_loop fuel args addr start num_bytes st w = (Ok st', w') <->
    exists k,
      (k < fuel)%nat
      /\ iterations k args addr start st w = (Ok st', w')
      /\ limit_reached args num_bytes st' = true
      /\ forall j sj wj,
           (j < k)%nat -> iterations j args addr start st w = (Ok sj, wj) ->
           limit_reached args num_bytes sj = false.
Proof.
  induction fuel as [| fuel IH]; intros st w st' w'.
  - split; [discriminate | intros (k & Hk & _); lia].
  - cbn [client_loop]; split.
    + destruct (limit_reached args num_bytes st) eqn:L.
      * intros [= <- <-]; exists 0%nat; repeat split; [lia | easy |].
        intros j sj wj Hj; lia.
      * intros Hl; apply bind_inv_ok in Hl as (s1 & w1 & Hbody & Hl).
        apply IH in Hl as (k & Hk & Hit & Hlim & Hbefore).
        exists (S k); repeat split; [lia | | easy |].
        -- cbn; now rewrite (bind_ok _ _ _ _ _ Hbody).
        -- intros [| j] sj wj Hj; cbn.
           ++ now intros [= <- <-].
           ++ rewrite (bind_ok _ _ _ _ _ Hbody); apply Hbefore; lia.
    + intros ([| k] & Hk & Hit & Hlim & Hbefore).
      * cbn in Hit; injection Hit as <- <-; now rewrite Hlim.
      * rewrite (Hbefore 0%nat st w) by (lia || reflexivity).
        cbn in Hit; apply bind_inv_ok in Hit as (s1 & w1 & Hbody & Hit).
        rewrite (bind_ok _ _ _ _ _ Hbody); apply IH.
        exists k; repeat split; [lia | easy | easy |].
        intros j sj wj Hj Hafter; apply (Hbefore (S j) sj wj); [lia |].
        cbn; now rewrite (bind_ok _ _ _ _ _ Hbody).
Qed.

Lemma sender_init_counters_ok : counters_ok (sender_init start).
Proof. unfold counters_ok, sent_ok; cbn; lia. Qed.

Lemma iterations_counters_ok k w st w' :
  iterations k args addr start (sender_init start) w = (Ok st, w') ->
  counters_ok st.
Proof.
  apply (iterations_invariant counters_ok loop_body_counters_ok).
  apply sender_init_counters_ok.
Qed.

(** C8.  During a sending session the bytes counted for the current
    interval never exceed the bytes sent in total: this holds when the two
    counters are initialised, at the head of the loop after any number of
    iterations, after every assignment of an iteration started there
    (lines 238 and 239, which add the chunk size to the one and then to
    the other, and lines 246 to 248, which only reset the interval
    counter), and so in the state the loop returns. *)
Theorem interval_within_total :
  sent_ok (sender_init start)
  /\ (forall k w st w',
         iterations k args addr start (sender_init start) w = (Ok st, w') ->
         sent_ok st
         /\ forall elapsed restarted,
              Forall sent_ok (body_states elapsed restarted st))
  /\ (forall fuel w st w',
         client_loop fuel args addr start num_bytes (sender_init start) w
         = (Ok st, w') ->
         sent_ok st).
Proof.
  split; [apply sender_init_counters_ok | split].
  - intros k w st w' Hk; apply iterations_counters_ok in Hk.
    split; [apply Hk |]; intros elapsed restarted.
    apply (Forall_impl sent_ok (P := counters_ok)); [now intros s [_ Hs] |].
    now apply body_states_counters_ok.
  - intros fuel w st w' Hloop.
    apply client_loop_first_limit in Hloop as (k & _ & Hk & _).
    now apply iterations_counters_ok in Hk as [_ Hk].
Qed.

End Sender.

(** C10.  When the [-n] argument ends in B but neither in KB nor in MB, the
    byte target of the sender is [int] of the argument without its last two
    characters, and no multiplier is applied; so 3000B gives a target of
    300 bytes, not 3000. *)
Theorem byte_suffix_target :
  (forall s : string,
      endswith s "B" = true ->
      endswith s "KB" = false ->
      endswith s "MB" = false ->
      parse_num s = py_int (drop_last 2 s)
      /\ forall args w,
           arg_num args = Some s ->
           read_num_bytes args w
           = (match py_int (drop_last 2 s) with
              | Ok n => Ok (Some n)
              | Raise e => Raise e
              | Running => Running
              end, w))
  /\ parse_num "3000B" = Ok 300.
Proof.
  split; [| reflexivity].
  intros s Hb Hkb Hmb.
  assert (Hparse : parse_num s = py_int (drop_last 2 s)).
  { unfold parse_num; rewrite Hkb, Hmb; now destruct (py_int (drop_last 2 s)). }
  split; [exact Hparse |].
  intros args w Hs; unfold read_num_bytes; rewrite Hs; cbn [truthy_str].
  destruct s as [| c s]; [discriminate Hb |]; cbn [String.eqb negb].
  unfold bind, lift; rewrite Hparse.
  now destruct (py_int (drop_last 2 (String c s))).
Qed.

(** * Further properties *)

(** ** [handle_client]: the ways out that raise *)

(** X1.  When a [recv] raises before any read has ended in the marker, the
    session raises the transport error; all it has done is close its
    socket: no acknowledgement is sent and nothing is printed. *)
Theorem read_error_aborts fuel fmt w (ds : list (list byte)) rest :
  inbox w = (map Data ds ++ ReadError :: rest)%list ->
  Forall (fun d => ends_with_bye d = false) ds ->
  (length ds < fuel)%nat ->
  exists w',
    handle_client fuel fmt w = (Raise OSError, w')
    /\ trace w' = (trace w ++ [Closed])%list
    /\ inbox w' = rest.
Proof.
  intros Hin Hds Hfuel.
  replace fuel with (length ds + S (fuel - length ds - 1))%nat by lia.
  rewrite (handle_client_skip _ _ _ ds (ReadError :: rest)) by easy.
  unfold finally; cbn [receive]; unfold bind at 1, sock_recv.
  rewrite inbox_set_inbox; unfold sock_close.
  eexists; split; [reflexivity |]; now world_simpl.
Qed.

(** X2.  When the marker arrives but the acknowledgement cannot be
    written, the session raises the transport error and closes its socket;
    neither the header nor the summary record is printed. *)
Theorem failed_acknowledgement fuel fmt w (ds : list (list byte)) d rest :
  inbox w = (map Data ds ++ Data d :: rest)%list ->
  Forall (fun x => ends_with_bye x = false) ds ->
  ends_with_bye d = true ->
  wire w (writes w) = false ->
  (length ds < fuel)%nat ->
  exists w',
    handle_client fuel fmt w = (Raise OSError, w')
    /\ trace w' = (trace w ++ [Closed])%list.
Proof.
  intros Hin Hds Hd Hwire Hfuel.
  replace fuel with (length ds + S (fuel - length ds - 1))%nat by lia.
  rewrite (handle_client_skip _ _ _ ds (Data d :: rest)) by easy.
  unfold finally; cbn [receive]; unfold bind at 1, sock_recv.
  rewrite inbox_set_inbox, Hd.
  unfold bind at 1, sock_send; world_simpl; rewrite Hwire.
  unfold sock_close.
  eexists; split; [reflexivity |]; now world_simpl.
Qed.

(** X3.  When the marker arrives and the clock has not advanced since the
    session started, the acknowledgement is sent and the header is
    printed, but [print_statistics] refuses the measurement: the session
    raises [ValueError] without a summary record, and closes its socket. *)
Theorem summary_needs_elapsed_time fuel fmt w (ds : list (list byte)) d rest :
  inbox w = (map Data ds ++ Data d :: rest)%list ->
  Forall (fun x => ends_with_bye x = false) ds ->
  ends_with_bye d = true ->
  wire w (writes w) = true ->
  num_le (num_sub (clock w (S (ticks w))) (clock w (ticks w))) (of_int 0)
  = true ->
  (length ds < fuel)%nat ->
  exists w',
    handle_client fuel fmt w = (Raise ValueError, w')
    /\ trace w'
       = (trace w ++ [Sent ACK_BYE; Printed (newline ++ header); Closed])%list.
Proof.
  intros Hin Hds Hd Hwire Hle Hfuel.
  replace fuel with (length ds + S (fuel - length ds - 1))%nat by lia.
  rewrite (handle_client_skip _ _ _ ds (Data d :: rest)) by easy.
  unfold finally; cbn [receive]; unfold bind at 1, sock_recv.
  rewrite inbox_set_inbox, Hd.
  unfold bind at 1, sock_send; world_simpl; rewrite Hwire.
  unfold bind at 1, time_time; world_simpl.
  unfold bind at 1, print.
  rewrite print_statistics_invalid by (right; exact Hle).
  unfold sock_close.
  eexists; split; [reflexivity |]; world_simpl.
  now rewrite <- !app_assoc.
Qed.

(** X4.  The test of line 147 holds exactly for the reads that end in the
    three bytes BYE; a read of fewer than three bytes never passes it,
    whatever the reads before it were. *)
Theorem marker_is_suffix_test (data : list byte) :
  (ends_with_bye data = true <-> exists before, data = (before ++ BYE)%list)
  /\ ((length data < 3)%nat -> ends_with_bye data = false).
Proof.
  split; [apply ends_with_bye_suffix |].
  intros Hshort; destruct (ends_with_bye data) eqn:E; [| reflexivity].
  apply ends_with_bye_suffix in E as [before ->].
  rewrite length_app in Hshort; simpl in Hshort; lia.
Qed.

(** ** The sending loop: what goes on the wire and what is reported *)

Lemma sent_payloads_app (t1 t2 : list event) :
  sent_payloads (t1 ++ t2) = (sent_payloads t1 ++ sent_payloads t2)%list.
Proof. apply flat_map_app. Qed.

Lemma printed_app (t1 t2 : list event) :
  printed (t1 ++ t2) = (printed t1 ++ printed t2)%list.
Proof. apply flat_map_app. Qed.

Lemma print_statistics_ok_inv addr b n (t : num) fmt w (u : unit) w' :
  print_statistics addr b n t fmt w = (Ok u, w') ->
  0 <= b
  /\ w' = record (Printed (stat_line (stat_record addr b n t fmt))) w.
Proof.
  unfold print_statistics.
  destruct (Z.ltb_spec b 0); cbn [orb]; [discriminate |].
  destruct (num_le t (of_int 0)); [discriminate |].
  now intros [= <- <-].
Qed.

Lemma sock_send_ok_inv payload w (u : unit) w' :
  sock_send payload w = (Ok u, w') ->
  w' = record (Sent payload) (set_writes (S (writes w)) w).
Proof.
  unfold sock_send; destruct (wire w (writes w)); [| discriminate].
  now intros [= <- <-].
Qed.

Section Streaming.

Variables (args : Args num) (addr : address) (start : num).

(** One iteration puts one chunk on the wire and either lets the interval
    grow by its size or reports the interval and starts the next one. *)
Lemma loop_body_cases st w st' w' :
  loop_body args addr start st w = (Ok st', w') ->
  total_bytes_sent st' = total_bytes_sent st + CHUNK_SIZE
  /\ sent_payloads (trace w')
     = (sent_payloads (trace w) ++ [chunk_data])%list
  /\ ((interval_number st' = interval_number st
       /\ interval_sent st' = interval_sent st + CHUNK_SIZE
       /\ printed (trace w') = printed (trace w))
      \/ (truthy_int (arg_interval args) = true
          /\ 0 <= interval_sent st + CHUNK_SIZE
          /\ interval_number st' = interval_number st + 1
          /\ interval_sent st' = 0
          /\ printed (trace w')
             = (printed (trace w)
                ++ [stat_line
                      (stat_record addr (interval_sent st + CHUNK_SIZE)
                         (interval_number st)
                         (interval_length (arg_interval args))
                         (arg_format args))])%list)).
Proof.
  unfold loop_body; intros H.
  apply bind_inv_ok in H as ([] & w1 & Hsend & H).
  apply sock_send_ok_inv in Hsend.
  apply bind_inv_ok in H as (t1 & w2 & Ht1 & H).
  unfold time_time in Ht1; injection Ht1 as <- <-.
  apply bind_inv_ok in H as (t2 & w3 & Ht2 & H).
  unfold time_time in Ht2; injection Ht2 as <- <-.
  match type of H with
  | context [interval_ended ?i ?t] => destruct (interval_ended i t) eqn:E
  end.
  - apply bind_inv_ok in H as ([] & w4 & Hps & H).
    apply print_statistics_ok_inv in Hps as [Hb ->].
    apply bind_inv_ok in H as (t3 & w5 & Ht3 & H).
    unfold time_time in Ht3; injection Ht3 as <- <-.
    unfold ret in H; injection H as <- <-; subst w1.
    cbn [total_bytes_sent interval_sent interval_number
         set_last_interval_start_time reset_interval next_interval
         set_total_time add_interval add_total] in *.
    world_simpl; rewrite !sent_payloads_app, !printed_app; cbn.
    rewrite !app_nil_r; repeat split; right; repeat split; try easy.
    destruct (arg_interval args) as [i |]; [| discriminate E].
    cbn in E |- *; now apply andb_prop in E as [-> _].
  - unfold ret in H; injection H as <- <-; subst w1.
    cbn [total_bytes_sent interval_sent interval_number
         set_total_time add_interval add_total].
    world_simpl; rewrite !sent_payloads_app, !printed_app; cbn.
    rewrite !app_nil_r; repeat split; left; now repeat split.
Qed.

Lemma chunks_length (k : nat) :
  length (concat (repeat chunk_data k)) = (1000 * k)%nat.
Proof.
  induction k as [| k IH]; [reflexivity |].
  cbn [repeat concat]; rewrite length_app, IH.
  unfold chunk_data; rewrite repeat_length.
  change (Z.to_nat CHUNK_SIZE) with 1000%nat; lia.
Qed.

Lemma iterations_wire k :
  forall st w st' w',
    iterations k args addr start st w = (Ok st', w') ->
    total_bytes_sent st' = total_bytes_sent st + CHUNK_SIZE * Z.of_nat k
    /\ sent_payloads (trace w')
       = (sent_payloads (trace w) ++ repeat chunk_data k)%list.
Proof.
  induction k as [| k IH]; intros st w st' w'; cbn [iterations].
  - intros [= <- <-]; cbn; rewrite app_nil_r; split; [lia | easy].
  - intros H; apply bind_inv_ok in H as (s1 & w1 & Hbody & H).
    apply loop_body_cases in Hbody as (Htotal & Hwire & _).
    apply IH in H as [-> ->]; rewrite Htotal, Hwire, <- app_assoc.
    split; [lia | reflexivity].
Qed.

Lemma iterations_split j :
  forall m st w st' w',
    iterations (j + m) args addr start st w = (Ok st', w') ->
    exists sj wj,
      iterations j args addr start st w = (Ok sj, wj)
      /\ iterations m args addr start sj wj = (Ok st', w').
Proof.
  induction j as [| j IH]; intros m st w st' w'; cbn [Nat.add iterations].
  - intros H; now exists st, w.
  - intros H; apply bind_inv_ok in H as (s1 & w1 & Hbody & H).
    apply IH in H as (sj & wj & Hj & Hm); exists sj, wj; split; [| easy].
    now rewrite (bind_ok _ _ _ _ _ Hbody).
Qed.

Lemma iterations_reports k :
  forall st w st' w',
    0 <= interval_sent st ->
    iterations k args addr start st w = (Ok st', w') ->
    exists counts,
      printed (trace w')
      = (printed (trace w)
         ++ interval_lines addr (interval_length (arg_interval args))
              (arg_format args) (interval_number st) counts)%list
      /\ interval_number st' = interval_number st + Z.of_nat (length counts)
      /\ sum_bytes counts + interval_sent st'
         = interval_sent st + CHUNK_SIZE * Z.of_nat k
      /\ Forall (fun count => CHUNK_SIZE <= count) counts
      /\ (truthy_int (arg_interval args) = false -> counts = []).
Proof.
  induction k as [| k IH]; intros st w st' w' Hsent; cbn [iterations].
  - intros [= <- <-]; exists []; cbn; rewrite app_nil_r.
    repeat split; [lia | lia | constructor].
  - intros H; apply bind_inv_ok in H as (s1 & w1 & Hbody & H).
    apply loop_body_cases in Hbody
      as (_ & _ & [(Hn & Hi & Hp) | (Ht & Hb & Hn & Hi & Hp)]).
    + apply IH in H as (counts & Hlines & Hnum & Hsum & Hall & Hnone);
        [| unfold CHUNK_SIZE in *; lia].
      exists counts; rewrite Hlines, Hnum, Hp, Hn.
      repeat split; try easy; lia.
    + apply IH in H as (counts & Hlines & Hnum & Hsum & Hall & Hnone);
        [| lia].
      exists (interval_sent st + CHUNK_SIZE :: counts).
      rewrite Hlines, Hnum, Hp, Hn, <- app_assoc.
      cbn [interval_lines app length sum_bytes fold_right].
      unfold sum_bytes in Hsum; repeat split; try lia.
      * constructor; [unfold CHUNK_SIZE in *; lia | easy].
      * intros Hnone'; congruence.
Qed.

(** X5.  When the sending loop returns, what it has written to the socket
    is a whole number of copies of the 1000-byte chunk and nothing else,
    and [total_bytes_sent] is exactly the number of bytes written. *)
Theorem loop_wire_accounting fuel num_bytes w st w' :
  client_loop fuel args addr start num_bytes (sender_init start) w
  = (Ok st, w') ->
  exists k : nat,
    sent_payloads (trace w')
    = (sent_payloads (trace w) ++ repeat chunk_data k)%list
    /\ total_bytes_sent st = Z.of_nat (length (concat (repeat chunk_data k)))
    /\ total_bytes_sent st = CHUNK_SIZE * Z.of_nat k.
Proof.
  intros H; apply client_loop_first_limit in H as (k & _ & Hk & _).
  apply iterations_wire in Hk as [Htotal Hwire]; exists k.
  split; [exact Hwire |]; cbn [sender_init total_bytes_sent] in Htotal.
  rewrite chunks_length, Htotal; unfold CHUNK_SIZE; lia.
Qed.

(** X6.  The reports printed inside the loop are numbered 0, 1, 2, ... and
    partition the bytes sent: their byte counts, each at least one chunk,
    add up with the bytes of the pending interval to [total_bytes_sent],
    and [interval_number] is the number of reports printed so far.
    Without a reporting interval the loop prints nothing. *)
Theorem interval_reports_partition fuel num_bytes w st w' :
  client_loop fuel args addr start num_bytes (sender_init start) w
  = (Ok st, w') ->
  exists counts : list Z,
    printed (trace w')
    = (printed (trace w)
       ++ interval_lines addr (interval_length (arg_interval args))
            (arg_format args) 0 counts)%list
    /\ interval_number st = Z.of_nat (length counts)
    /\ sum_bytes counts + interval_sent st = total_bytes_sent st
    /\ Forall (fun count => CHUNK_SIZE <= count) counts
    /\ (truthy_int (arg_interval args) = false -> counts = []).
Proof.
  intros H; apply client_loop_first_limit in H as (k & _ & Hk & _).
  pose proof (iterations_wire _ _ _ _ _ Hk) as [Htotal _].
  apply iterations_reports in Hk as (counts & Hlines & Hnum & Hsum & Hall);
    [| cbn; lia].
  exists counts; cbn in *; repeat split; try easy; lia.
Qed.

(** X7.  With a byte target [n >= 0], a loop that returns before the
    configured duration has elapsed has sent exactly [n / 1000 + 1] chunks:
    the sender always goes past its target, to the next multiple of the
    chunk size (a target of 3000 bytes gives 4000 bytes on the wire). *)
Theorem byte_target_overshoot fuel n w st w' :
  client_loop fuel args addr start (Some n) (sender_init start) w
  = (Ok st, w') ->
  truthy_str (arg_num args) = true ->
  0 <= n ->
  time_exceeded args st = false ->
  total_bytes_sent st = CHUNK_SIZE * (n / CHUNK_SIZE + 1)
  /\ n < total_bytes_sent st <= n + CHUNK_SIZE.
Proof.
  intros H Hnum Hn Htime.
  apply client_loop_first_limit in H as (k & _ & Hk & Hlim & Hbefore).
  unfold limit_reached, bytes_exceeded in Hlim, Hbefore.
  rewrite Htime, Hnum in Hlim; cbn in Hlim; apply Z.gtb_lt in Hlim.
  pose proof (iterations_wire _ _ _ _ _ Hk) as [Htotal _];
    cbn [sender_init total_bytes_sent] in Htotal.
  destruct k as [| k]; [cbn in Htotal; lia |].
  replace (S k) with (k + 1)%nat in Hk by lia.
  apply iterations_split in Hk as (sj & wj & Hj & _).
  pose proof (iterations_wire _ _ _ _ _ Hj) as [Htotalj _];
    cbn [sender_init total_bytes_sent] in Htotalj.
  specialize (Hbefore k sj wj (Nat.lt_succ_diag_r k) Hj).
  rewrite Hnum in Hbefore; apply orb_false_iff in Hbefore as [_ Hbefore].
  cbn in Hbefore; rewrite Z.gtb_ltb in Hbefore.
  apply Z.ltb_ge in Hbefore.
  unfold CHUNK_SIZE in *.
  assert (Hdiv : n / 1000 = Z.of_nat k).
  { symmetry; apply (Z.div_unique n 1000 (Z.of_nat k) (n - 1000 * Z.of_nat k));
      lia. }
  rewrite Hdiv; lia.
Qed.

(** X8.  With a non-negative duration and a non-negative byte target (or
    none), the check of line 233 fails before the first chunk: a loop that
    returns has sent at least one chunk, even with a duration of zero. *)
Theorem first_chunk_always_sent fuel num_bytes w st w' :
  client_loop fuel args addr start num_bytes (sender_init start) w
  = (Ok st, w') ->
  num_gt (of_int 0) (arg_time args) = false ->
  (forall n, num_bytes = Some n -> 0 <= n) ->
  CHUNK_SIZE <= total_bytes_sent st.
Proof.
  intros H Htime Hn.
  apply client_loop_first_limit in H as (k & _ & Hk & Hlim & _).
  pose proof (iterations_wire _ _ _ _ _ Hk) as [Htotal _];
    cbn [sender_init total_bytes_sent] in Htotal.
  destruct k as [| k]; [| unfold CHUNK_SIZE in *; lia].
  cbn in Hk; injection Hk as <- <-.
  unfold limit_reached, time_exceeded, bytes_exceeded in Hlim.
  cbn [total_time sender_init total_bytes_sent] in Hlim.
  rewrite Htime in Hlim; cbn in Hlim.
  apply andb_prop in Hlim as [_ Hlim].
  destruct num_bytes as [n |]; [| discriminate].
  apply Z.gtb_lt in Hlim; specialize (Hn n eq_refl); lia.
Qed.

(** *** The two limits of line 233 *)

Lemma bytes_exceeded_true num_bytes st :
  bytes_exceeded args num_bytes st = true <->
  exists s target,
    arg_num args = Some s /\ s <> "" /\ num_bytes = Some target
    /\ target < total_bytes_sent st.
Proof.
  unfold bytes_exceeded, truthy_str; split.
  - destruct (arg_num args) as [s |]; [| discriminate].
    destruct (String.eqb_spec s ""); [discriminate |].
    destruct num_bytes as [target |]; [| discriminate].
    cbn; intros H; apply Z.gtb_lt in H; now exists s, target.
  - intros (s & target & -> & Hs & -> & Hlt).
    destruct (String.eqb_spec s ""); [easy |]; cbn; now apply Z.gtb_lt.
Qed.

Lemma bytes_exceeded_false num_bytes st :
  bytes_exceeded args num_bytes st = false <->
  forall s target,
    arg_num args = Some s -> s <> "" -> num_bytes = Some target ->
    total_bytes_sent st <= target.
Proof.
  split.
  - intros Hf s target Hs Hne Hnb.
    destruct (Z.le_gt_cases (total_bytes_sent st) target) as [| Hgt];
      [easy |].
    assert (bytes_exceeded args num_bytes st = true)
      by (apply bytes_exceeded_true; now exists s, target).
    congruence.
  - intros H; destruct (bytes_exceeded args num_bytes st) eqn:E;
      [| reflexivity].
    apply bytes_exceeded_true in E as (s & target & Hs & Hne & Hnb & Hlt).
    specialize (H s target Hs Hne Hnb); lia.
Qed.

(** Line 240: the elapsed time is the first reading of the clock after
    the chunk was sent, less the start time. *)
Lemma loop_body_elapsed st w st' w' :
  loop_body args addr start st w = (Ok st', w') ->
  total_time st' = num_sub (clock w (ticks w)) start.
Proof.
  unfold loop_body; intros H.
  apply bind_inv_ok in H as ([] & w1 & Hsend & H).
  apply sock_send_ok_inv in Hsend.
  apply bind_inv_ok in H as (t1 & w2 & Ht1 & H).
  unfold time_time in Ht1; injection Ht1 as <- <-.
  apply bind_inv_ok in H as (t2 & w3 & Ht2 & H).
  unfold time_time in Ht2; injection Ht2 as <- <-.
  match type of H with
  | context [interval_ended ?i ?t] => destruct (interval_ended i t)
  end.
  - apply bind_inv_ok in H as ([] & w4 & Hps & H).
    apply bind_inv_ok in H as (t3 & w5 & Ht3 & H).
    unfold ret in H; injection H as <- <-; subst w1; cbn.
    now world_simpl.
  - unfold ret in H; injection H as <- <-; subst w1; cbn.
    now world_simpl.
Qed.

(** C2.  The sending loop returns exactly at the first head of the loop
    where the elapsed time is greater than the configured duration, or
    where a byte target is configured and the bytes sent are more than
    that target: it has run the [k] iterations before that head, and at
    each of their heads the elapsed time was not greater than the duration
    and the bytes sent were not more than the target.  Either limit is
    enough: an exceeded duration stops the loop with or without a byte
    target, and an exceeded byte target stops it whatever the elapsed
    time.  So without a byte target the loop never returns before the
    elapsed time exceeds the duration.  The elapsed time compared is the
    reading of the clock taken right after the last chunk was sent, less
    the start time, and the bytes sent grow by the 1000 bytes of the chunk
    that each iteration writes. *)
Theorem sender_stops_on_first_limit (num_bytes : option Z) :
  (forall fuel st w st' w',
      client_loop fuel args addr start num_bytes st w = (Ok st', w') <->
      exists k,
        (k < fuel)%nat
        /\ iterations k args addr start st w = (Ok st', w')
        /\ (num_gt (total_time st') (arg_time args) = true
            \/ exists s target,
                 arg_num args = Some s /\ s <> ""
                 /\ num_bytes = Some target
                 /\ target < total_bytes_sent st')
        /\ forall j sj wj,
             (j < k)%nat -> iterations j args addr start st w = (Ok sj, wj) ->
             num_gt (total_time sj) (arg_time args) = false
             /\ forall s target,
                  arg_num args = Some s -> s <> "" ->
                  num_bytes = Some target ->
                  total_bytes_sent sj <= target)
  /\ (forall fuel st w,
         num_gt (total_time st) (arg_time args) = true ->
         client_loop (S fuel) args addr start num_bytes st w = (Ok st, w))
  /\ (forall fuel st w s target,
         arg_num args = Some s -> s <> "" -> num_bytes = Some target ->
         target < total_bytes_sent st ->
         client_loop (S fuel) args addr start num_bytes st w = (Ok st, w))
  /\ (arg_num args = None \/ arg_num args = Some "" ->
      forall fuel st w st' w',
        client_loop fuel args addr start num_bytes st w = (Ok st', w') ->
        num_gt (total_time st') (arg_time args) = true)
  /\ (forall st w st' w',
         loop_body args addr start st w = (Ok st', w') ->
         total_time st' = num_sub (clock w (ticks w)) start
         /\ total_bytes_sent st' = total_bytes_sent st + 1000
         /\ sent_payloads (trace w')
            = (sent_payloads (trace w) ++ [repeat "0"%byte 1000])%list).
Proof.
  assert (Hyes : forall st,
             limit_reached args num_bytes st = true <->
             num_gt (total_time st) (arg_time args) = true
             \/ exists s target,
                  arg_num args = Some s /\ s <> ""
                  /\ num_bytes = Some target
                  /\ target < total_bytes_sent st).
  { intros st; unfold limit_reached, time_exceeded.
    now rewrite orb_true_iff, bytes_exceeded_true. }
  assert (Hno : forall st,
             limit_reached args num_bytes st = false <->
             num_gt (total_time st) (arg_time args) = false
             /\ forall s target,
                  arg_num args = Some s -> s <> "" ->
                  num_bytes = Some target ->
                  total_bytes_sent st <= target).
  { intros st; unfold limit_reached, time_exceeded.
    now rewrite orb_false_iff, bytes_exceeded_false. }
  split; [| split; [| split; [| split]]].
  - intros fuel st w st' w'; rewrite client_loop_first_limit.
    split; intros (k & Hk & Hit & Hlim & Hbefore);
      exists k; (split; [exact Hk |]); (split; [exact Hit |]); split.
    + now apply Hyes.
    + intros j sj wj Hj Hafter; apply Hno; now apply (Hbefore j sj wj).
    + now apply Hyes.
    + intros j sj wj Hj Hafter; apply Hno; now apply (Hbefore j sj wj).
  - intros fuel st w Htime; cbn [client_loop].
    now rewrite (proj2 (Hyes st)) by now left.
  - intros fuel st w s target Hs Hne Hnb Hlt; cbn [client_loop].
    now rewrite (proj2 (Hyes st)) by (right; now exists s, target).
  - intros Hnum fuel st w st' w' Hloop.
    apply client_loop_first_limit in Hloop as (k & _ & _ & Hlim & _).
    apply Hyes in Hlim as [Htime | (s & target & Hs & Hne & _)];
      [exact Htime |].
    destruct Hnum as [Hnum | Hnum]; congruence.
  - intros st w st' w' Hbody.
    split; [exact (loop_body_elapsed _ _ _ _ Hbody) |].
    now apply loop_body_cases in Hbody as (Htotal & Hwire & _).
Qed.

(** *** What the loop does, event by event *)

Lemma loop_body_events st w st' w' :
  loop_body args addr start st w = (Ok st', w') ->
  exists events,
    trace w' = (trace w ++ events)%list
    /\ Forall (fun e => e = Sent chunk_data \/ exists line, e = Printed line)
         events.
Proof.
  unfold loop_body; intros H.
  apply bind_inv_ok in H as ([] & w1 & Hsend & H).
  apply sock_send_ok_inv in Hsend.
  apply bind_inv_ok in H as (t1 & w2 & Ht1 & H).
  unfold time_time in Ht1; injection Ht1 as <- <-.
  apply bind_inv_ok in H as (t2 & w3 & Ht2 & H).
  unfold time_time in Ht2; injection Ht2 as <- <-.
  match type of H with
  | context [interval_ended ?i ?t] => destruct (interval_ended i t)
  end.
  - apply bind_inv_ok in H as ([] & w4 & Hps & H).
    apply print_statistics_ok_inv in Hps as [_ ->].
    apply bind_inv_ok in H as (t3 & w5 & Ht3 & H).
    unfold time_time in Ht3; injection Ht3 as <- <-.
    unfold ret in H; injection H as <- <-; subst w1.
    eexists; world_simpl; rewrite <- app_assoc; split; [reflexivity |].
    constructor; [now left |].
    constructor; [right; eexists; reflexivity | constructor].
  - unfold ret in H; injection H as <- <-; subst w1.
    eexists; world_simpl; split; [reflexivity |].
    constructor; [now left | constructor].
Qed.

Lemma iterations_events k :
  forall st w st' w',
    iterations k args addr start st w = (Ok st', w') ->
    exists events,
      trace w' = (trace w ++ events)%list
      /\ Forall
           (fun e => e = Sent chunk_data \/ exists line, e = Printed line)
           events.
Proof.
  induction k as [| k IH]; intros st w st' w'; cbn [iterations].
  - intros [= <- <-]; exists []; now rewrite app_nil_r.
  - intros H; apply bind_inv_ok in H as (s1 & w1 & Hbody & H).
    apply loop_body_events in Hbody as (ev1 & Ht1 & Hio1).
    apply IH in H as (ev2 & Ht2 & Hio2).
    exists (ev1 ++ ev2)%list; rewrite Ht2, Ht1, app_assoc.
    split; [reflexivity | now apply Forall_app].
Qed.

(** A loop that returns has sent [k] chunks and printed the reports of the
    intervals that ended, which together with the pending interval account
    for every byte sent. *)
Lemma client_loop_stream fuel num_bytes w st w' :
  client_loop fuel args addr start num_bytes (sender_init start) w
  = (Ok st, w') ->
  exists (k : nat) (counts : list Z) (streamed : list event),
    trace w' = (trace w ++ streamed)%list
    /\ Forall (fun e => e = Sent chunk_data \/ exists line, e = Printed line)
         streamed
    /\ sent_payloads streamed = repeat chunk_data k
    /\ printed streamed
       = interval_lines addr (interval_length (arg_interval args))
           (arg_format args) 0 counts
    /\ interval_number st = Z.of_nat (length counts)
    /\ sum_bytes counts + interval_sent st = 1000 * Z.of_nat k
    /\ total_bytes_sent st = 1000 * Z.of_nat k
    /\ Forall (fun count => 1000 <= count) counts
    /\ 0 <= interval_sent st
    /\ (truthy_int (arg_interval args) = false -> counts = []).
Proof.
  intros H; apply client_loop_first_limit in H as (k & _ & Hk & _).
  pose proof (iterations_wire _ _ _ _ _ Hk) as [Htotal Hwire].
  pose proof (iterations_counters_ok _ _ _ _ _ _ _ Hk) as [Hlast _].
  pose proof (iterations_events _ _ _ _ _ Hk) as (streamed & Htrace & Hio).
  apply iterations_reports in Hk
    as (counts & Hlines & Hnumber & Hsum & Hall & Hnone); [| cbn; lia].
  cbn [sender_init total_bytes_sent interval_sent interval_number]
    in Htotal, Hlines, Hnumber, Hsum.
  rewrite Htrace, sent_payloads_app in Hwire.
  rewrite Htrace, printed_app in Hlines.
  apply app_inv_head in Hwire, Hlines.
  exists k, counts, streamed; unfold CHUNK_SIZE in *.
  repeat split; try easy; lia.
Qed.

End Streaming.

(** ** [client]: the whole session *)

Lemma keeps_open_sock_connect peer : keeps_open (num := num) (sock_connect peer).
Proof.
  intros w r w'; unfold sock_connect; destruct (reachable w);
    intros [= <- <-].
  - exists [Connected peer]; split; [easy |]; now intros [[=] | []].
  - exists []; now rewrite app_nil_r.
Qed.

Lemma keeps_open_getsockname : keeps_open (num := num) getsockname.
Proof. intros w r w' [= <- <-]; exists []; now rewrite app_nil_r. Qed.

Lemma keeps_open_lift {A : Type} (r : res A) : keeps_open (num := num) (lift r).
Proof. intros w r' w' [= <- <-]; exists []; now rewrite app_nil_r. Qed.

Lemma keeps_open_read_num_bytes args : keeps_open (read_num_bytes args).
Proof.
  unfold read_num_bytes; destruct (arg_num args) as [s |];
    [| apply keeps_open_ret].
  destruct (truthy_str (Some s)); [| apply keeps_open_ret].
  apply keeps_open_bind; [apply keeps_open_lift |].
  intros n; apply keeps_open_ret.
Qed.

Lemma keeps_open_loop_body args addr (start : num) st :
  keeps_open (loop_body args addr start st).
Proof.
  unfold loop_body.
  apply keeps_open_bind; [apply keeps_open_sock_send | intros _].
  apply keeps_open_bind; [apply keeps_open_time_time | intros t1].
  apply keeps_open_bind; [apply keeps_open_time_time | intros t2].
  match goal with
  | |- context [interval_ended ?i ?t] => destruct (interval_ended i t)
  end; [| apply keeps_open_ret].
  apply keeps_open_bind; [apply keeps_open_print_statistics | intros _].
  apply keeps_open_bind; [apply keeps_open_time_time | intros t3].
  apply keeps_open_ret.
Qed.

Lemma keeps_open_client_loop fuel args addr (start : num) num_bytes :
  forall st, keeps_open (client_loop fuel args addr start num_bytes st).
Proof.
  induction fuel as [| fuel IH]; intros st; cbn [client_loop].
  - apply keeps_open_running.
  - destruct (limit_reached args num_bytes st); [apply keeps_open_ret |].
    apply keeps_open_bind; [apply keeps_open_loop_body | apply IH].
Qed.

Lemma keeps_open_flush_last_interval args addr st :
  keeps_open (flush_last_interval args addr st).
Proof.
  unfold flush_last_interval.
  destruct (truthy_int (arg_interval args)); [| apply keeps_open_ret].
  apply keeps_open_bind; [apply keeps_open_print_statistics | intros _].
  apply keeps_open_print.
Qed.

Lemma closes_after_bye_bind {A B : Type} (m : M num A) (k : A -> M num B) :
  keeps_open m -> (forall a, closes_after_bye (k a)) ->
  closes_after_bye (bind m k).
Proof.
  intros Hm Hk w r w''; unfold bind.
  destruct (m w) as [[a | e |] w'] eqn:E;
    destruct (Hm _ _ _ E) as (ev1 & Ht1 & Hn1).
  - intros Hka; destruct (Hk a _ _ _ Hka) as (ev2 & Ht2 & Hbye & Herr).
    exists (ev1 ++ ev2)%list; rewrite Ht2, Ht1, app_assoc.
    split; [easy |]; rewrite !in_app_iff; split; [tauto |].
    intros Hr [Hin | Hin]; [tauto | now apply (Herr Hr)].
  - intros [= <- <-]; exists ev1; tauto.
  - intros [= <- <-]; exists ev1; tauto.
Qed.

(** Lines 256-263. *)
Lemma closes_after_bye_closing addr b (t : num) fmt :
  closes_after_bye
    (sock_send BYE ;;
     ack <- sock_recv 1024 ;;
     sock_close ;;
     print (newline ++ header) ;;
     print_statistics addr b 0 t fmt).
Proof.
  intros w r w'; unfold bind at 1, sock_send.
  destruct (wire w (writes w)).
  2:{ intros [= <- <-]; exists []; world_simpl; rewrite app_nil_r.
      split; [easy |]; split; [intros [] | intros _ []]. }
  unfold bind at 1, sock_recv; world_simpl.
  destruct (inbox w) as [| [ack | |] rest].
  3,4: (intros [= <- <-]; exists [Sent BYE]; world_simpl;
        split; [easy |]; split; [now left |];
        intros _ [[=] | []]).
  all: unfold bind at 1, sock_close, bind at 1, print, print_statistics;
    match goal with
    | |- context [if ?c then _ else _] => destruct c
    end; unfold raise, print; intros [= <- <-]; eexists;
    (split; [world_simpl; rewrite <- !app_assoc; reflexivity |]);
    (split; [now left |]); now intros [[=] | [=]].
Qed.

(** X9.  The sender closes its socket only after it has sent the marker
    and read the answer: in every run that closes the socket, BYE was
    written before, and a run that ends in a transport error (a failed
    connect, write or read) never closes the socket, there being no
    [finally] clause on this side. *)
Theorem client_socket_release fuel args w (r : res unit) w' :
  client fuel args w = (r, w') ->
  exists events,
    trace w' = (trace w ++ events)%list
    /\ (In Closed events -> In (Sent BYE) events)
    /\ (r = Raise OSError \/ r = Running -> ~ In Closed events).
Proof.
  revert w r w'; change (closes_after_bye (client fuel args)).
  unfold client.
  apply closes_after_bye_bind; [apply keeps_open_sock_connect | intros _].
  apply closes_after_bye_bind; [apply keeps_open_getsockname | intros addr].
  apply closes_after_bye_bind; [apply keeps_open_print | intros _].
  apply closes_after_bye_bind; [apply keeps_open_sock_send | intros _].
  apply closes_after_bye_bind; [apply keeps_open_time_time | intros start].
  apply closes_after_bye_bind.
  { destruct (truthy_int (arg_interval args));
      [apply keeps_open_print | apply keeps_open_ret]. }
  intros _.
  apply closes_after_bye_bind; [apply keeps_open_read_num_bytes | intros nb].
  apply closes_after_bye_bind; [apply keeps_open_client_loop | intros st].
  apply closes_after_bye_bind;
    [apply keeps_open_flush_last_interval | intros _].
  apply closes_after_bye_closing.
Qed.

Lemma read_num_bytes_world args w (r : res (option Z)) w' :
  read_num_bytes args w = (r, w') -> w' = w.
Proof.
  unfold read_num_bytes; destruct (arg_num args) as [s |];
    [| now intros [= _ <-]].
  destruct (truthy_str (Some s)); [| now intros [= _ <-]].
  unfold bind, lift; destruct (parse_num s); now intros [= _ <-].
Qed.

Lemma flush_last_interval_wire args addr st w (u : unit) w' :
  flush_last_interval args addr st w = (Ok u, w') ->
  sent_payloads (trace w') = sent_payloads (trace w).
Proof.
  unfold flush_last_interval.
  destruct (truthy_int (arg_interval args)); [| now intros [= _ <-]].
  intros H; apply bind_inv_ok in H as ([] & w1 & Hps & H).
  apply print_statistics_ok_inv in Hps as [_ ->].
  unfold print in H; injection H as _ <-; world_simpl.
  rewrite !sent_payloads_app; cbn; now rewrite !app_nil_r.
Qed.

Lemma sock_recv_trace bufsize w (r : res (list byte)) w' :
  sock_recv bufsize w = (r, w') -> trace w' = trace w.
Proof.
  unfold sock_recv; destruct (inbox w) as [| [d | |] rest];
    now intros [= _ <-].
Qed.

Lemma client_session_wire fuel args w w' :
  client fuel args w = (Ok tt, w') ->
  exists (k : nat) (elapsed : num) (before : list event),
    sent_payloads (trace w')
    = (sent_payloads (trace w)
       ++ list_byte_of_string ("START " ++ num_str (arg_time args))
       :: repeat chunk_data k ++ [BYE])%list
    /\ trace w'
       = (before
          ++ [Sent BYE; Closed; Printed (newline ++ header);
              Printed
                (stat_line
                   (stat_record (sockname w) (CHUNK_SIZE * Z.of_nat k) 0
                      elapsed (arg_format args)))])%list.
Proof.
  unfold client; intros H.
  apply bind_inv_ok in H as ([] & w1 & Hconnect & H).
  unfold sock_connect in Hconnect.
  destruct (reachable w); [| discriminate]; injection Hconnect as <-.
  apply bind_inv_ok in H as (addr & w2 & Haddr & H).
  unfold getsockname in Haddr; injection Haddr as <- <-.
  apply bind_inv_ok in H as ([] & w3 & Hprint & H).
  unfold print in Hprint; injection Hprint as <-.
  apply bind_inv_ok in H as ([] & w4 & Hstart & H).
  apply sock_send_ok_inv in Hstart.
  apply bind_inv_ok in H as (start & w5 & Htime & H).
  unfold time_time in Htime; injection Htime as <- <-.
  apply bind_inv_ok in H as ([] & w6 & Hheader & H).
  assert (Hw6 : sent_payloads (trace w6) = sent_payloads (trace w4)).
  { destruct (truthy_int (arg_interval args)); injection Hheader as <-;
      world_simpl; [| reflexivity].
    rewrite sent_payloads_app; cbn; now rewrite app_nil_r. }
  clear Hheader.
  apply bind_inv_ok in H as (nb & w7 & Hnum & H).
  apply read_num_bytes_world in Hnum as ->.
  apply bind_inv_ok in H as (st & w8 & Hloop & H).
  apply client_loop_first_limit in Hloop as (k & _ & Hk & _).
  apply iterations_wire in Hk as [Htotal Hw8].
  cbn [sender_init total_bytes_sent] in Htotal.
  apply bind_inv_ok in H as ([] & w9 & Hflush & H).
  apply flush_last_interval_wire in Hflush as Hw9.
  apply bind_inv_ok in H as ([] & w10 & Hbye & H).
  apply sock_send_ok_inv in Hbye.
  apply bind_inv_ok in H as (ack & w11 & Hrecv & H).
  apply sock_recv_trace in Hrecv.
  apply bind_inv_ok in H as ([] & w12 & Hclose & H).
  unfold sock_close in Hclose; injection Hclose as <-.
  apply bind_inv_ok in H as ([] & w13 & Hprint & H).
  unfold print in Hprint; injection Hprint as <-.
  apply print_statistics_ok_inv in H as [_ ->].
  exists k, (total_time st), (trace w9); split.
  - world_simpl; rewrite Hrecv, Hbye; world_simpl.
    rewrite !sent_payloads_app, Hw9, Hw8, Hw6, Hstart; world_simpl.
    rewrite !sent_payloads_app; cbn [sent_payloads flat_map app].
    now rewrite !app_nil_r, <- !app_assoc.
  - world_simpl; rewrite Hrecv, Hbye; world_simpl.
    rewrite Htotal, <- !app_assoc; reflexivity.
Qed.

(** X10.  A run of the sender that returns has written, in this order, the
    START message, a whole number [k] of chunks and the marker, and
    nothing else; it ends by closing the socket and printing the header
    and one summary record, and that record reports [1000 * k] bytes: the
    bytes of the START message and of the marker are not counted. *)
Theorem client_session_shape fuel args w w' :
  client fuel args w = (Ok tt, w') ->
  exists (k : nat) (elapsed : num) (before : list event),
    sent_payloads (trace w')
    = (sent_payloads (trace w)
       ++ list_byte_of_string ("START " ++ num_str (arg_time args))
       :: repeat chunk_data k ++ [BYE])%list
    /\ trace w'
       = (before
          ++ [Sent BYE; Closed; Printed (newline ++ header);
              Printed
                (stat_line
                   (stat_record (sockname w) (CHUNK_SIZE * Z.of_nat k) 0
                      elapsed (arg_format args)))])%list.
Proof. apply client_session_wire. Qed.

(** ** The byte target *)

Ltac digit_step :=
  cbn [NilEmpty.string_of_uint list_ascii_of_string parse_digits];
  match goal with
  | |- context [digit_value ?c] =>
      let v := eval vm_compute in (digit_value c) in
      change (digit_value c) with v
  end;
  cbv iota beta.

Lemma parse_digits_acc (d : Decimal.uint) :
  forall acc : positive,
    parse_digits (Z.pos acc) true
      (list_ascii_of_string (NilEmpty.string_of_uint d))
    = Some (Z.pos (Pos.of_uint_acc d acc)).
Proof.
  induction d; intros acc; [reflexivity | ..]; digit_step;
    cbn [Pos.of_uint_acc]; rewrite <- IHd; f_equal; lia.
Qed.

Lemma parse_digits_uint (d : Decimal.uint) :
  parse_digits 0 true (list_ascii_of_string (NilEmpty.string_of_uint d))
  = Some (Z.of_N (Pos.of_uint d)).
Proof.
  induction d; [reflexivity | ..]; digit_step; cbn [Pos.of_uint Z.of_N];
    [exact IHd | ..]; apply (parse_digits_acc d).
Qed.

Lemma parse_digits_first (d : Decimal.uint) :
  d <> Decimal.Nil ->
  parse_digits 0 false (list_ascii_of_string (NilEmpty.string_of_uint d))
  = Some (Z.of_N (Pos.of_uint d)).
Proof.
  destruct d; [easy | ..]; intros _; digit_step; cbn [Pos.of_uint Z.of_N];
    [apply (parse_digits_uint d) | ..]; apply (parse_digits_acc d).
Qed.

Lemma digits_no_space (d : Decimal.uint) :
  Forall (fun c => is_space c = false)
    (list_ascii_of_string (NilEmpty.string_of_uint d)).
Proof.
  induction d; cbn [NilEmpty.string_of_uint list_ascii_of_string];
    constructor; easy.
Qed.

Lemma lstrip_no_space (cs : list ascii) :
  Forall (fun c => is_space c = false) cs -> lstrip cs = cs.
Proof. intros [| c cs' Hc _]; [reflexivity |]; cbn; now rewrite Hc. Qed.

Lemma strip_no_space (cs : list ascii) :
  Forall (fun c => is_space c = false) cs -> strip cs = cs.
Proof.
  intros Hcs; unfold strip; rewrite (lstrip_no_space cs Hcs).
  rewrite lstrip_no_space by now apply Forall_rev.
  apply rev_involutive.
Qed.

(** [int] reads back what [str] writes. *)
Lemma py_int_str_int (n : Z) : py_int (str_int n) = Ok n.
Proof.
  destruct n as [| p | p]; [reflexivity | |]; unfold str_int, py_int;
    cbn [Z.to_int NilZero.string_of_int];
    pose proof (Unsigned.to_uint_nonnil p) as Hnil;
    pose proof (DecimalPos.Unsigned.of_to p) as Hval;
    pose proof (digits_no_space (Pos.to_uint p)) as Hsp;
    pose proof (parse_digits_first (Pos.to_uint p) Hnil) as Hparse;
    destruct (Pos.to_uint p) eqn:E; try easy;
    cbn [NilZero.string_of_uint] in *.
  all: try (rewrite strip_no_space by exact Hsp;
            cbn [NilEmpty.string_of_uint list_ascii_of_string] in *;
            rewrite Hparse, Hval; reflexivity).
  all: cbn [list_ascii_of_string];
    rewrite strip_no_space by (constructor; [reflexivity | exact Hsp]);
    rewrite Hparse, Hval; reflexivity.
Qed.

Lemma string_length_app (s t : string) :
  String.length (s ++ t) = (String.length s + String.length t)%nat.
Proof. induction s as [| c s IH]; cbn; [reflexivity | now rewrite IH]. Qed.

Lemma substring_all (t : string) : substring 0 (String.length t) t = t.
Proof. induction t as [| c t IH]; cbn; [reflexivity | now rewrite IH]. Qed.

Lemma substring_app_head (s t : string) :
  substring 0 (String.length s) (s ++ t) = s.
Proof.
  induction s as [| c s IH]; cbn; [now destruct t | now rewrite IH].
Qed.

Lemma substring_app_tail (s t : string) :
  substring (String.length s) (String.length t) (s ++ t) = t.
Proof. induction s as [| c s IH]; cbn; [apply substring_all | exact IH]. Qed.

Lemma drop_last_app (s t : string) :
  drop_last (String.length t) (s ++ t) = s.
Proof.
  unfold drop_last; rewrite string_length_app, Nat.add_sub.
  apply substring_app_head.
Qed.

Lemma endswith_app (s t u : string) :
  String.length t = String.length u ->
  endswith (s ++ t) u = String.eqb t u.
Proof.
  intros Hlen; unfold endswith; rewrite string_length_app, <- Hlen.
  rewrite Nat.add_sub, substring_app_tail.
  now destruct (Nat.leb_spec (String.length t)
                  (String.length s + String.length t)); [| lia].
Qed.

(** X11.  A target written as an int followed by KB or MB is read back as
    that int times one thousand or one million: the parsing of lines
    224-228 undoes the printing of the number, for every int. *)
Theorem unit_suffix_round_trip (n : Z) :
  parse_num (str_int n ++ "KB") = Ok (n * 1000)
  /\ parse_num (str_int n ++ "MB") = Ok (n * 1000000).
Proof.
  unfold parse_num; split.
  - rewrite (drop_last_app (str_int n) "KB"
             : drop_last 2 (str_int n ++ "KB") = str_int n), py_int_str_int.
    now rewrite (endswith_app (str_int n) "KB" "KB").
  - rewrite (drop_last_app (str_int n) "MB"
             : drop_last 2 (str_int n ++ "MB") = str_int n), py_int_str_int.
    rewrite (endswith_app (str_int n) "MB" "KB") by reflexivity.
    now rewrite (endswith_app (str_int n) "MB" "MB").
Qed.

(** X12.  A target of one or two characters (5B, 9, KB) leaves nothing
    for [int] to read: the sender raises [ValueError] right after the
    handshake, before the first chunk, and leaves its socket open. *)
Theorem short_target_rejected fuel args w (s : string) :
  arg_num args = Some s ->
  s <> "" ->
  (String.length s <= 2)%nat ->
  reachable w = true ->
  wire w (writes w) = true ->
  parse_num s = Raise ValueError
  /\ exists w',
       client fuel args w = (Raise ValueError, w')
       /\ trace w'
          = (trace w
             ++ [Connected (arg_serverip args, arg_port args);
                 Printed
                   (fst (sockname w) ++ ":" ++ str_int (snd (sockname w))
                    ++ " connected with " ++ arg_serverip args ++ " port "
                    ++ str_int (arg_port args));
                 Sent
                   (list_byte_of_string
                      ("START " ++ num_str (arg_time args)))]
             ++ (if truthy_int (arg_interval args)
                 then [Printed header] else []))%list.
Proof.
  intros Hs Hne Hlen Hreach Hwire.
  assert (Hparse : parse_num s = Raise ValueError).
  { unfold parse_num, drop_last.
    replace (String.length s - 2)%nat with 0%nat by lia.
    now destruct s. }
  split; [exact Hparse |].
  unfold client, bind at 1, sock_connect; rewrite Hreach.
  unfold bind at 1, getsockname, bind at 1, print.
  unfold bind at 1, sock_send; world_simpl; rewrite Hwire.
  unfold bind at 1, time_time, bind at 1.
  assert (Hread : forall w0 : world num,
             read_num_bytes args w0 = (Raise ValueError, w0)).
  { intros w0; unfold read_num_bytes; rewrite Hs; cbn [truthy_str].
    destruct (String.eqb_spec s ""); [easy |]; cbn [negb].
    unfold bind, lift; now rewrite Hparse. }
  destruct (truthy_int (arg_interval args)); unfold print, ret;
    unfold bind at 1; rewrite Hread;
    (eexists; split; [reflexivity |]); world_simpl;
    now rewrite <- !app_assoc.
Qed.

(** ** [server]: the listening thread *)

Lemma accept_loop_serves bind port (peers : list address) :
  forall fuel queue,
    accept_loop (length peers + fuel) bind port
      (map Incoming peers ++ queue)
    = (fst (accept_loop fuel bind port queue),
       (served bind port peers
        ++ snd (accept_loop fuel bind port queue))%list).
Proof.
  induction peers as [| peer peers IH]; intros fuel queue.
  - cbn; now destruct (accept_loop fuel bind port queue).
  - cbn [length Nat.add map app accept_loop]; now rewrite IH.
Qed.

Lemma accept_loop_never_returns fuel bind port :
  forall queue, fst (accept_loop fuel bind port queue) <> Ok tt.
Proof.
  induction fuel as [| fuel IH]; intros queue; cbn; [easy |].
  destruct queue as [| [peer |] queue]; try easy.
  specialize (IH queue); now destruct (accept_loop fuel bind port queue).
Qed.

(** X13.  The listening thread starts exactly one handler for each
    connection it accepts, in the order of acceptance, announcing each
    one first; when no connection is pending it is waiting in [accept],
    its socket still open. *)
Theorem server_serves_in_order fuel bind port (peers : list address) :
  (length peers < fuel)%nat ->
  server fuel bind port
    {| can_bind := true; backlog := map Incoming peers |}
  = (Running, (banner bind port ++ served bind port peers)%list).
Proof.
  intros Hfuel.
  replace fuel with (length peers + S (fuel - length peers - 1))%nat by lia.
  unfold server; cbn [can_bind backlog].
  rewrite <- (app_nil_r (map Incoming peers)), accept_loop_serves.
  cbn; now rewrite app_nil_r.
Qed.

(** X14.  [server] never returns normally: it is either still serving,
    with its listening socket open, or it has ended in a transport error
    (a failed [bind] or [accept]), and then closing the listening socket
    is the last thing it did. *)
Theorem server_never_returns fuel bind port (l : listener) :
  (fst (server fuel bind port l) = Running
   /\ ~ In Unbound (snd (server fuel bind port l)))
  \/ (fst (server fuel bind port l) = Raise OSError
      /\ exists events,
           snd (server fuel bind port l) = (events ++ [Unbound])%list
           /\ ~ In Unbound events).
Proof.
  assert (Hloop : forall fuel queue,
             ~ In Unbound (snd (accept_loop fuel bind port queue))
             /\ (fst (accept_loop fuel bind port queue) = Running
                 \/ fst (accept_loop fuel bind port queue) = Raise OSError)).
  { clear fuel; induction fuel as [| fuel IH]; intros queue; cbn;
      [now split; [| left] |].
    destruct queue as [| [peer |] queue]; cbn;
      [now split; [| left] | | now split; [| right]].
    specialize (IH queue).
    destruct (accept_loop fuel bind port queue) as [r events]; cbn in *.
    split; [| tauto]; intros [[=] | [[=] | Hin]]; tauto. }
  assert (Hbanner : ~ In Unbound (banner bind port))
    by (cbn; intros [[=] | [[=] | [[=] | []]]]).
  unfold server; destruct (can_bind l).
  - specialize (Hloop fuel (backlog l)).
    destruct (accept_loop fuel bind port (backlog l)) as [r events].
    cbn [fst snd] in Hloop; destruct Hloop as [Hin [-> | ->]];
      cbn [fst snd].
    + left; split; [easy |]; rewrite in_app_iff; tauto.
    + right; split; [easy |]; exists (banner bind port ++ events)%list.
      rewrite app_assoc, in_app_iff; tauto.
  - right; split; [easy |]; exists []; now split.
Qed.

(** X15.  When an [accept] fails, the handlers already started stay
    started, the listening socket is closed and the error leaves
    [server]; the connections still waiting are never accepted. *)
Theorem accept_error_stops_server fuel bind port (peers : list address)
    (queue : list incoming) :
  (length peers < fuel)%nat ->
  server fuel bind port
    {| can_bind := true;
       backlog := map Incoming peers ++ AcceptError :: queue |}
  = (Raise OSError,
     (banner bind port ++ served bind port peers ++ [Unbound])%list).
Proof.
  intros Hfuel.
  replace fuel with (length peers + S (fuel - length peers - 1))%nat by lia.
  unfold server; cbn [can_bind backlog].
  rewrite accept_loop_serves; cbn [accept_loop fst snd].
  now rewrite app_nil_r.
Qed.

Lemma interval_lines_snoc addr (t : num) fmt (counts : list Z) last :
  forall first,
    interval_lines addr t fmt first (counts ++ [last])
    = (interval_lines addr t fmt first counts
       ++ [stat_line
             (stat_record addr last (first + Z.of_nat (length counts)) t
                fmt)])%list.
Proof.
  induction counts as [| c counts IH]; intros first;
    cbn [app interval_lines length].
  - now rewrite Z.add_0_r.
  - rewrite IH.
    now replace (first + Z.of_nat (S (length counts)))
      with (first + 1 + Z.of_nat (length counts)) by lia.
Qed.

Lemma sum_bytes_snoc (counts : list Z) last :
  sum_bytes (counts ++ [last]) = sum_bytes counts + last.
Proof.
  unfold sum_bytes; induction counts as [| c counts IH]; cbn; lia.
Qed.

(** X18.  What a run of the sender that returns has printed: the line
    about the connection; with a reporting interval, the header, one
    record for each interval, numbered from 0, the last of them being the
    one flushed after the loop, and the divider; then the header and the
    summary record.  The byte counts of the interval records add up to
    the byte count of the summary record. *)
Theorem client_console_output fuel args w w' :
  client fuel args w = (Ok tt, w') ->
  exists (counts : list Z) (last : Z) (elapsed : num),
    printed (trace w')
    = (printed (trace w)
       ++ (fst (sockname w) ++ ":" ++ str_int (snd (sockname w))
           ++ " connected with " ++ arg_serverip args ++ " port "
           ++ str_int (arg_port args))%string
       :: (if truthy_int (arg_interval args)
           then header
                :: interval_lines (sockname w)
                     (interval_length (arg_interval args))
                     (arg_format args) 0 (counts ++ [last])
                ++ [repeat_string 60 "-"]
           else [])
       ++ [(newline ++ header)%string;
           stat_line
             (stat_record (sockname w) (sum_bytes (counts ++ [last])) 0
                elapsed (arg_format args))])%list
    /\ Forall (fun count => CHUNK_SIZE <= count) counts
    /\ 0 <= last.
Proof.
  unfold client; intros H.
  apply bind_inv_ok in H as ([] & w1 & Hconnect & H).
  unfold sock_connect in Hconnect.
  destruct (reachable w); [| discriminate]; injection Hconnect as <-.
  apply bind_inv_ok in H as (addr & w2 & Haddr & H).
  unfold getsockname in Haddr; injection Haddr as <- <-.
  apply bind_inv_ok in H as ([] & w3 & Hprint & H).
  unfold print in Hprint; injection Hprint as <-.
  apply bind_inv_ok in H as ([] & w4 & Hstart & H).
  apply sock_send_ok_inv in Hstart.
  apply bind_inv_ok in H as (start & w5 & Htime & H).
  unfold time_time in Htime; injection Htime as <- <-.
  apply bind_inv_ok in H as ([] & w6 & Hheader & H).
  apply bind_inv_ok in H as (nb & w7 & Hnum & H).
  apply read_num_bytes_world in Hnum as ->.
  apply bind_inv_ok in H as (st & w8 & Hloop & H).
  apply client_loop_first_limit in Hloop as (k & _ & Hk & _).
  pose proof (iterations_wire _ _ _ _ _ _ _ _ Hk) as [Htotal _].
  pose proof (iterations_counters_ok _ _ _ _ _ _ _ Hk) as [Hlast _].
  apply iterations_reports in Hk
    as (counts & Hlines & Hnumber & Hsum & Hall & Hnone); [| cbn; lia].
  cbn [sender_init total_bytes_sent interval_sent interval_number]
    in Htotal, Hlines, Hnumber, Hsum.
  apply bind_inv_ok in H as ([] & w9 & Hflush & H).
  apply bind_inv_ok in H as ([] & w10 & Hbye & H).
  apply sock_send_ok_inv in Hbye.
  apply bind_inv_ok in H as (ack & w11 & Hrecv & H).
  apply sock_recv_trace in Hrecv.
  apply bind_inv_ok in H as ([] & w12 & Hclose & H).
  unfold sock_close in Hclose; injection Hclose as <-.
  apply bind_inv_ok in H as ([] & w13 & Hprint & H).
  unfold print in Hprint; injection Hprint as <-.
  apply print_statistics_ok_inv in H as [_ ->].
  exists counts, (interval_sent st), (total_time st).
  split; [| split; [exact Hall | exact Hlast]].
  rewrite sum_bytes_snoc, Hsum, <- Htotal.
  world_simpl; rewrite Hrecv, Hbye; world_simpl.
  rewrite !printed_app; cbn [printed flat_map app]; rewrite !app_nil_r.
  unfold flush_last_interval in Hflush; unfold print, ret in Hheader.
  destruct (truthy_int (arg_interval args)).
  - apply bind_inv_ok in Hflush as ([] & w' & Hps & Hflush).
    apply print_statistics_ok_inv in Hps as [_ ->].
    unfold print in Hflush; injection Hflush as <-.
    injection Hheader as <-; world_simpl.
    rewrite !printed_app, Hlines; world_simpl.
    rewrite !printed_app, Hstart; world_simpl.
    rewrite !printed_app; cbn [printed flat_map app]; rewrite !app_nil_r.
    rewrite interval_lines_snoc, Hnumber, <- !app_assoc; cbn [app].
    rewrite <- ?app_assoc; reflexivity.
  - injection Hflush as <-; injection Hheader as <-.
    rewrite Hlines, (Hnone eq_refl), Hstart; world_simpl.
    rewrite !printed_app; cbn [printed flat_map app interval_lines].
    rewrite ?app_nil_r, <- ?app_assoc; reflexivity.
Qed.

(** C5, as amended.  Whenever the sending loop returns, it has done
    nothing but send chunks and print the reports of the intervals that
    ended in it: the bytes of the interval pending when a limit is found
    exceeded are in none of these reports, which together with them account
    for every byte sent.  With a reporting interval [i > 0], the step after
    the loop reports the pending interval once, whatever its byte count
    (zero included), and prints the divider; without one ([None] or [0])
    the loop has printed nothing and that step does nothing.  So in a run
    of the sender that returns, the report of the pending interval comes
    right after the last event of the loop, followed by the divider, the
    marker, the close and the summary; and without a reporting interval
    the marker follows the last chunk directly and the only record of the
    session is the summary. *)
Theorem last_interval_flushed :
  (forall fuel args addr (start : num) num_bytes w st w1,
      client_loop fuel args addr start num_bytes (sender_init start) w
      = (Ok st, w1) ->
      exists (counts : list Z) (streamed : list event),
        trace w1 = (trace w ++ streamed)%list
        /\ Forall
             (fun e => e = Sent chunk_data \/ exists line, e = Printed line)
             streamed
        /\ Forall (fun count => 1000 <= count) counts
        /\ 0 <= interval_sent st
        /\ sum_bytes counts + interval_sent st = total_bytes_sent st
        /\ interval_number st = Z.of_nat (length counts)
        /\ (forall i,
               arg_interval args = Some i -> 0 < i ->
               printed streamed
               = interval_lines addr (of_int i) (arg_format args) 0 counts
               /\ flush_last_interval args addr st w1
                  = (Ok tt,
                     set_trace
                       (trace w1
                        ++ [Printed
                              (stat_line
                                 (stat_record addr (interval_sent st)
                                    (interval_number st) (of_int i)
                                    (arg_format args)));
                            Printed (repeat_string 60 "-")])%list
                       w1))
        /\ (arg_interval args = None \/ arg_interval args = Some 0 ->
            printed streamed = []
            /\ flush_last_interval args addr st w1 = (Ok tt, w1)))
  /\ (forall fuel args w w',
         client fuel args w = (Ok tt, w') ->
         exists (k : nat) (counts : list Z) (last : Z) (elapsed : num)
                (streamed : list event),
           Forall
             (fun e => e = Sent chunk_data \/ exists line, e = Printed line)
             streamed
           /\ sent_payloads streamed = repeat chunk_data k
           /\ Forall (fun count => 1000 <= count) counts
           /\ 0 <= last
           /\ sum_bytes counts + last = 1000 * Z.of_nat k
           /\ (forall i,
                  arg_interval args = Some i -> i <> 0 ->
                  printed streamed
                  = interval_lines (sockname w) (of_int i) (arg_format args)
                      0 counts
                  /\ trace w'
                     = (trace w
                        ++ [Connected (arg_serverip args, arg_port args);
                            Printed
                              (fst (sockname w) ++ ":"
                               ++ str_int (snd (sockname w))
                               ++ " connected with " ++ arg_serverip args
                               ++ " port " ++ str_int (arg_port args));
                            Sent
                              (list_byte_of_string
                                 ("START " ++ num_str (arg_time args)));
                            Printed header]
                        ++ streamed
                        ++ [Printed
                              (stat_line
                                 (stat_record (sockname w) last
                                    (Z.of_nat (length counts)) (of_int i)
                                    (arg_format args)));
                            Printed (repeat_string 60 "-");
                            Sent BYE;
                            Closed;
                            Printed (newline ++ header);
                            Printed
                              (stat_line
                                 (stat_record (sockname w)
                                    (1000 * Z.of_nat k) 0 elapsed
                                    (arg_format args)))])%list)
           /\ (arg_interval args = None \/ arg_interval args = Some 0 ->
               printed streamed = []
               /\ last = 1000 * Z.of_nat k
               /\ trace w'
                  = (trace w
                     ++ [Connected (arg_serverip args, arg_port args);
                         Printed
                           (fst (sockname w) ++ ":"
                            ++ str_int (snd (sockname w))
                            ++ " connected with " ++ arg_serverip args
                            ++ " port " ++ str_int (arg_port args));
                         Sent
                           (list_byte_of_string
                              ("START " ++ num_str (arg_time args)))]
                     ++ streamed
                     ++ [Sent BYE;
                         Closed;
                         Printed (newline ++ header);
                         Printed
                           (stat_line
                              (stat_record (sockname w)
                                 (1000 * Z.of_nat k) 0 elapsed
                                 (arg_format args)))])%list)).
Proof.
  split.
  { intros fuel args addr start nb w st w1 Hloop.
    apply client_loop_stream in Hloop
      as (k & counts & streamed & Htrace & Hio & Hsent & Hprinted & Hnumber
          & Hsum & Htotal & Hall & Hlast & Hnone).
    exists counts, streamed.
    do 4 (split; [easy |]); split; [lia |]; split; [easy |].
    unfold flush_last_interval; split.
    - intros i Hi Hpos; rewrite Hi in *.
      cbn [truthy_int interval_length] in *.
      destruct (Z.eqb_spec i 0) as [-> | _]; [lia |]; cbn [negb].
      split; [exact Hprinted |].
      unfold bind at 1; rewrite print_statistics_passes; [| easy |].
      + unfold print; now rewrite record_twice.
      + rewrite num_le_of_int; apply Z.leb_gt; lia.
    - intros Hi.
      assert (Hfalse : truthy_int (arg_interval args) = false)
        by (destruct Hi as [-> | ->]; reflexivity).
      rewrite Hfalse; rewrite (Hnone Hfalse) in Hprinted.
      split; [exact Hprinted | reflexivity]. }
  intros fuel args w w'; unfold client; intros H.
  apply bind_inv_ok in H as ([] & w1 & Hconnect & H).
  unfold sock_connect in Hconnect.
  destruct (reachable w); [| discriminate]; injection Hconnect as <-.
  apply bind_inv_ok in H as (addr & w2 & Haddr & H).
  unfold getsockname in Haddr; injection Haddr as <- <-.
  apply bind_inv_ok in H as ([] & w3 & Hprint & H).
  unfold print in Hprint; injection Hprint as <-.
  apply bind_inv_ok in H as ([] & w4 & Hstart & H).
  apply sock_send_ok_inv in Hstart.
  apply bind_inv_ok in H as (start & w5 & Htime & H).
  unfold time_time in Htime; injection Htime as <- <-.
  apply bind_inv_ok in H as ([] & w6 & Hheader & H).
  apply bind_inv_ok in H as (nb & w7 & Hnum & H).
  apply read_num_bytes_world in Hnum as ->.
  apply bind_inv_ok in H as (st & w8 & Hloop & H).
  apply client_loop_stream in Hloop
    as (k & counts & streamed & Htrace & Hio & Hsent & Hprinted & Hnumber
        & Hsum & Htotal & Hall & Hlast & Hnone).
  apply bind_inv_ok in H as ([] & w9 & Hflush & H).
  apply bind_inv_ok in H as ([] & w10 & Hbye & H).
  apply sock_send_ok_inv in Hbye.
  apply bind_inv_ok in H as (ack & w11 & Hrecv & H).
  apply sock_recv_trace in Hrecv.
  apply bind_inv_ok in H as ([] & w12 & Hclose & H).
  unfold sock_close in Hclose; injection Hclose as <-.
  apply bind_inv_ok in H as ([] & w13 & Hprint & H).
  unfold print in Hprint; injection Hprint as <-.
  apply print_statistics_ok_inv in H as [_ ->].
  exists k, counts, (interval_sent st), (total_time st), streamed.
  do 5 (split; [easy |]).
  unfold flush_last_interval in Hflush; unfold print, ret in Hheader.
  rewrite Htotal; world_simpl; rewrite Hrecv, Hbye; world_simpl.
  split.
  - intros i Hi Hne; rewrite Hi in *.
    cbn [truthy_int interval_length] in *.
    destruct (Z.eqb_spec i 0); [easy |]; cbn [negb] in *.
    split; [exact Hprinted |].
    apply bind_inv_ok in Hflush as ([] & w' & Hps & Hflush).
    apply print_statistics_ok_inv in Hps as [_ ->].
    unfold print in Hflush; injection Hflush as <-.
    injection Hheader as <-; world_simpl.
    rewrite Htrace; world_simpl; rewrite Hstart; world_simpl.
    rewrite Hnumber, <- !app_assoc; reflexivity.
  - intros Hi.
    assert (Hfalse : truthy_int (arg_interval args) = false)
      by (destruct Hi as [-> | ->]; reflexivity).
    rewrite Hfalse in *; specialize (Hnone eq_refl); subst counts.
    cbn [interval_lines sum_bytes fold_right] in *.
    split; [exact Hprinted | split; [lia |]].
    injection Hflush as <-; injection Hheader as <-.
    rewrite Htrace, Hstart; world_simpl.
    rewrite <- !app_assoc; reflexivity.
Qed.

(** ** The two ends together *)

Lemma received_chunks acc (k : nat) :
  received acc (repeat chunk_data k) = acc + CHUNK_SIZE * Z.of_nat k.
Proof.
  revert acc; induction k as [| k IH]; intros acc.
  - cbn; lia.
  - cbn [repeat]; unfold received at 1; cbn [fold_left].
    change (fold_left _ (repeat chunk_data k) ?a)
      with (received a (repeat chunk_data k)).
    rewrite IH; unfold chunk_data at 1; rewrite repeat_length.
    unfold CHUNK_SIZE; lia.
Qed.

Lemma chunks_no_marker (k : nat) :
  Forall (fun d => ends_with_bye d = false) (repeat chunk_data k).
Proof.
  induction k as [| k IH]; cbn [repeat]; constructor; [| exact IH].
  vm_compute; reflexivity.
Qed.

(** X17.  Let a sender run to its end and let the receiver read what the
    sender wrote, one read for each write; let the receiver's
    acknowledgement be written without error and let its clock have
    advanced since its session started.  Then the receiver ends with its
    summary, and the two summaries disagree by design: the sender reports
    the [1000 * k] bytes of its chunks, the receiver these bytes plus the
    bytes of the START message, which it counts as data, and the three
    bytes of the marker. *)
Theorem end_to_end_byte_counts fuel args wc wc' fuel' fmt ws :
  trace wc = [] ->
  client fuel args wc = (Ok tt, wc') ->
  inbox ws = map Data (sent_payloads (trace wc')) ->
  ends_with_bye (list_byte_of_string ("START " ++ num_str (arg_time args)))
  = false ->
  wire ws (writes ws) = true ->
  num_gt (num_sub (clock ws (S (ticks ws))) (clock ws (ticks ws))) (of_int 0)
  = true ->
  (length (sent_payloads (trace wc')) <= fuel')%nat ->
  exists (k : nat) (elapsed : num) (before : list event) ws',
    trace wc'
    = (before
       ++ [Sent BYE; Closed; Printed (newline ++ header);
           Printed
             (stat_line
                (stat_record (sockname wc) (CHUNK_SIZE * Z.of_nat k) 0
                   elapsed (arg_format args)))])%list
    /\ handle_client fuel' fmt ws = (Ok tt, ws')
    /\ trace ws'
       = (trace ws
          ++ [Sent ACK_BYE; Printed (newline ++ header);
              Printed
                (stat_line
                   (stat_record (peername ws)
                      (Z.of_nat
                         (length
                            (list_byte_of_string
                               ("START " ++ num_str (arg_time args))))
                       + CHUNK_SIZE * Z.of_nat k + 3)
                      0
                      (num_sub (clock ws (S (ticks ws)))
                               (clock ws (ticks ws)))
                      fmt));
              Closed])%list.
Proof.
  intros Hempty Hclient Hin Hstart Hwire Hpos Hfuel.
  apply client_session_wire in Hclient as (k & elapsed & before & Hsent & Ht).
  rewrite Hempty in Hsent; cbn [sent_payloads flat_map app] in Hsent.
  rewrite Hsent in Hin, Hfuel.
  set (start_message :=
         list_byte_of_string ("START " ++ num_str (arg_time args))) in *.
  exists k, elapsed, before; rewrite Ht.
  change (start_message :: repeat chunk_data k ++ [BYE])%list
    with ((start_message :: repeat chunk_data k) ++ [BYE])%list in Hin, Hfuel.
  rewrite map_app in Hin; rewrite length_app in Hfuel.
  cbn [map length] in Hin, Hfuel.
  assert (Hds : Forall (fun d => ends_with_bye d = false)
                  (start_message :: repeat chunk_data k))
    by (constructor; [exact Hstart | apply chunks_no_marker]).
  replace fuel'
    with (length (start_message :: repeat chunk_data k)
          + S (fuel' - S (length (repeat chunk_data k)) - 1))%nat
    by (cbn [length]; lia).
  rewrite (handle_client_skip _ _ _ _ [Data BYE] Hds Hin) by easy.
  unfold finally; cbn [receive]; unfold bind at 1, sock_recv.
  rewrite inbox_set_inbox.
  change (ends_with_bye BYE) with true; cbv iota.
  unfold bind at 1, sock_send; world_simpl; rewrite Hwire.
  unfold bind at 1, time_time; world_simpl.
  unfold bind at 1, print.
  rewrite print_statistics_valid.
  - eexists; split; [reflexivity |]; split; [reflexivity |].
    unfold sock_close; world_simpl.
    unfold received at 1; cbn [fold_left].
    change (fold_left _ (repeat chunk_data k) ?a)
      with (received a (repeat chunk_data k)).
    rewrite received_chunks, <- !app_assoc; cbn [length Z.of_nat app].
    do 4 f_equal; f_equal; f_equal; f_equal; lia.
  - pose proof (received_ge 0 (start_message :: repeat chunk_data k)); lia.
  - world_simpl; exact Hpos.
Qed.

(** ** The printed line *)

Lemma spaces_length (n : nat) : String.length (spaces n) = n.
Proof. induction n as [| n IH]; cbn; [reflexivity | now rewrite IH]. Qed.

Lemma ljust_length (width : nat) (s : string) :
  String.length (ljust width s) = Nat.max width (String.length s).
Proof. unfold ljust; rewrite string_length_app, spaces_length; lia. Qed.

(** X16.  The printed line has four columns of at least 16, 12, 12 and 12
    characters separated by one space: no field is ever cut, a field
    that is too long pushes the following columns to the right, and the
    line is never shorter than the 55 characters of the header. *)
Theorem stat_line_width (r : StatRecord) :
  String.length (stat_line r)
  = (Nat.max 16 (String.length (rec_id r)) + 1
     + Nat.max 12 (String.length (rec_interval r)) + 1
     + Nat.max 12 (String.length (rec_bytes_transfered r)) + 1
     + Nat.max 12 (String.length (rec_bandwidth r)))%nat
  /\ (String.length header <= String.length (stat_line r))%nat.
Proof.
  assert (Hlen : String.length (stat_line r)
                 = (Nat.max 16 (String.length (rec_id r)) + 1
                    + Nat.max 12 (String.length (rec_interval r)) + 1
                    + Nat.max 12 (String.length (rec_bytes_transfered r)) + 1
                    + Nat.max 12 (String.length (rec_bandwidth r)))%nat).
  { unfold stat_line; rewrite !string_length_app, !ljust_length.
    cbn [String.length]; lia. }
  split; [exact Hlen |].
  rewrite Hlen; change (String.length header) with 55%nat; lia.
Qed.

End Properties.

(** * The properties on concrete sessions *)

Import ExactNum Session.

(** ** Exact arithmetic

    Over the rationals the two divisions by the chunk size are one division
    by its square, and the formatter does not tell equal rationals apart. *)

Lemma round_half_even_comp (p q : Q) :
  (p == q)%Q -> round_half_even p = round_half_even q.
Proof.
  intros Hpq; unfold round_half_even.
  rewrite (Qfloor_comp _ _ Hpq).
  now rewrite Hpq.
Qed.

Lemma fixed_comp d (p q : Q) : (p == q)%Q -> fixed d p = fixed d q.
Proof.
  intros Hpq; unfold fixed.
  rewrite (round_half_even_comp (Qabs p * inject_Z (10 ^ Z.of_nat d))
             (Qabs q * inject_Z (10 ^ Z.of_nat d)))
    by now rewrite Hpq.
  now rewrite (Qleb_comp 0%Q 0%Q (Qeq_refl 0%Q) p q Hpq).
Qed.

Lemma exact_bandwidth_square addr b n (t : Q) format :
  rec_bandwidth (stat_record addr b n t format)
  = fixed 1 (inject_Z b / inject_Z (CHUNK_SIZE ^ 2) / t * inject_Z 8)%Q
    ++ " Mbps".
Proof.
  cbn [stat_record rec_bandwidth]; f_equal; apply fixed_comp.
  cbn [num_mul num_div of_int exact_num]; unfold Qdiv.
  rewrite <- (Qmult_assoc (inject_Z b)).
  do 2 (apply Qmult_comp; [| reflexivity]).
  apply Qmult_comp; reflexivity.
Qed.

(** ** Runs *)

(** The record for 3000 bytes in half a second, shown in KB. *)
Lemma bandwidth_field_witness :
  exists amount : string,
    ("KB" = "B" -> amount = str_int 3000 ++ " B")
    /\ ("KB" = "KB" ->
        amount = num_fixed 0 (num_div (of_int 3000) (of_int 1000)) ++ " KB")
    /\ ("KB" = "MB" ->
        amount
        = num_fixed 2 (num_div (num_div (of_int 3000) (of_int 1000))
                               (of_int 1000))
          ++ " MB")
    /\ forall w : world Q,
         print_statistics client_end 3000 0 (1 # 2)%Q "KB" w
         = (Ok tt,
            record
              (Printed
                 (ljust 16 (fst client_end ++ ":" ++ str_int (snd client_end))
                  ++ " "
                  ++ ljust 12
                       (num_fixed 1 (num_mul (of_int 0) (1 # 2)%Q) ++ " - "
                        ++ num_fixed 1
                             (num_add (num_mul (of_int 0) (1 # 2)%Q)
                                      (1 # 2)%Q))
                  ++ " "
                  ++ ljust 12 amount
                  ++ " "
                  ++ ljust 12
                       (num_fixed 1
                          (num_mul
                             (num_div
                                (num_div
                                   (num_div (of_int 3000) (of_int 1000))
                                   (of_int 1000))
                                (1 # 2)%Q)
                             (of_int 8))
                        ++ " Mbps")))
              w).
Proof.
  apply (bandwidth_field client_end 3000 0 (1 # 2)%Q "KB");
    [lia | reflexivity | simpl; tauto].
Defined.

(** The line printed for that record. *)
Lemma three_thousand_bytes_line :
  stat_line (stat_record client_end 3000 0 (1 # 2)%Q "KB")
  = "127.0.0.1:50000  0.0 - 0.5    3 KB         0.0 Mbps    ".
Proof. vm_compute; reflexivity. Qed.

(** A negative byte count is refused, a valid measurement is printed. *)
Lemma invalid_measurement_witness :
  print_statistics client_end (-1) 0 (1 # 1)%Q "B" answered
  = (Raise ValueError, answered)
  /\ exists line,
       print_statistics client_end 3000 0 (1 # 2)%Q "KB" answered
       = (Ok tt, record (Printed line) answered).
Proof.
  split.
  - apply (proj1 (invalid_measurement client_end (-1) 0 (1 # 1)%Q "B"
                    answered)).
    left; lia.
  - apply (proj2 (invalid_measurement client_end 3000 0 (1 # 2)%Q "KB"
                    answered)).
    split; [lia | reflexivity].
Defined.

(** Against C7 as stated: a call with a valid measurement returns no value
    and leaves a printed line in the world. *)
Lemma print_statistics_prints :
  fst (print_statistics client_end 3000 0 (1 # 2)%Q "KB" answered) = Ok tt
  /\ trace (snd (print_statistics client_end 3000 0 (1 # 2)%Q "KB" answered))
     = [Printed "127.0.0.1:50000  0.0 - 0.5    3 KB         0.0 Mbps    "]
  /\ snd (print_statistics client_end 3000 0 (1 # 2)%Q "KB" answered)
     <> answered.
Proof.
  split; [reflexivity | split; [vm_compute; reflexivity |]].
  intros Heq; apply (f_equal trace) in Heq; vm_compute in Heq; discriminate.
Qed.

(** Three chunks and the marker: 3003 bytes in half a second. *)
Lemma marker_detected_witness :
  exists (amount : string) (w' : world Q),
    ("KB" = "B" -> amount = str_int 3003 ++ " B")
    /\ ("KB" = "KB" ->
        amount = num_fixed 0 (num_div (of_int 3003) (of_int 1000)) ++ " KB")
    /\ ("KB" <> "B" -> "KB" <> "KB" ->
        amount
        = num_fixed 2 (num_div (num_div (of_int 3003) (of_int 1000))
                               (of_int 1000))
          ++ " MB")
    /\ handle_client 10 "KB" (quiet half_seconds three_chunks) = (Ok tt, w')
    /\ trace w'
       = (trace (quiet half_seconds three_chunks)
          ++ [Sent (list_byte_of_string "ACK:BYE");
              Printed (newline ++ header);
              Printed
                (ljust 16
                   (fst (peername (quiet half_seconds three_chunks)) ++ ":"
                    ++ str_int
                         (snd (peername (quiet half_seconds three_chunks))))
                 ++ " "
                 ++ ljust 12
                      (num_fixed 1
                         (num_mul (of_int 0)
                            (num_sub (half_seconds 1) (half_seconds 0)))
                       ++ " - "
                       ++ num_fixed 1
                            (num_add
                               (num_mul (of_int 0)
                                  (num_sub (half_seconds 1) (half_seconds 0)))
                               (num_sub (half_seconds 1) (half_seconds 0))))
                 ++ " "
                 ++ ljust 12 amount
                 ++ " "
                 ++ ljust 12
                      (num_fixed 1
                         (num_mul
                            (num_div
                               (num_div
                                  (num_div (of_int 3003) (of_int 1000))
                                  (of_int 1000))
                               (num_sub (half_seconds 1) (half_seconds 0)))
                            (of_int 8))
                       ++ " Mbps"));
              Closed])%list
    /\ inbox w' = [].
Proof.
  apply (proj1 (marker_detected 10 "KB" (quiet half_seconds three_chunks)
                  [chunk_data; chunk_data; chunk_data] BYE [] [] 3003
                  (num_sub (half_seconds 1) (half_seconds 0))
                  eq_refl
                  ltac:(repeat constructor; apply no_marker;
                        vm_compute; reflexivity)
                  eq_refl eq_refl ltac:(simpl; lia) eq_refl eq_refl)).
  reflexivity.
Defined.

(** Against C3 as stated: the marker arrives and the acknowledgement is
    written, but the clock has not advanced since the session started,
    and the session ends in [ValueError] without a summary record. *)
Lemma no_summary_on_standing_clock :
  fst (handle_client 10 "KB" (quiet frozen three_chunks)) = Raise ValueError
  /\ trace (snd (handle_client 10 "KB" (quiet frozen three_chunks)))
     = [Sent (list_byte_of_string "ACK:BYE");
        Printed (newline ++ header);
        Closed].
Proof. split; vm_compute; reflexivity. Qed.

(** The summary line of that session. *)
Lemma server_summary_line :
  trace (snd (handle_client 10 "KB" (quiet half_seconds three_chunks)))
  = [Sent ACK_BYE;
     Printed (newline ++ header);
     Printed "127.0.0.1:50000  0.0 - 0.5    3 KB         0.0 Mbps    ";
     Closed].
Proof. vm_compute; reflexivity. Qed.

(** A marker split over two reads is not seen. *)
Lemma split_marker_missed :
  ends_with_bye ["B"; "Y"]%byte = false
  /\ ends_with_bye ["E"]%byte = false
  /\ ends_with_bye ["0"; "B"; "Y"; "E"]%byte = true
  /\ ends_with_bye ["B"; "Y"; "E"; "0"]%byte = false.
Proof. repeat split. Qed.

(** One chunk, then the peer closes: still receiving after 50 reads. *)
Lemma peer_closes_without_marker_witness :
  exists w' : world Q,
    handle_client 50 "KB" (quiet half_seconds [Data chunk_data])
    = (Running, w')
    /\ trace w' = [].
Proof.
  apply (peer_closes_without_marker 50 "KB"
           (quiet half_seconds [Data chunk_data]) [chunk_data]).
  - reflexivity.
  - repeat constructor.
Defined.

(** A connection that is reset before the session starts: the session
    ends in the transport error and its socket is left open. *)
Lemma reset_before_start_witness :
  exists w' : world Q,
    handle_client 10 "KB" (quiet half_seconds (Reset :: three_chunks))
    = (Raise OSError, w')
    /\ trace w' = trace (quiet half_seconds (Reset :: three_chunks))
    /\ ~ In Closed
           (skipn (length (trace (quiet half_seconds (Reset :: three_chunks))))
                  (trace w')).
Proof.
  apply (reset_before_start 10 "KB"
           (quiet half_seconds (Reset :: three_chunks)) three_chunks).
  reflexivity.
Defined.

(** The three ways out of the [try] of [handle_client]: after the marker,
    after a failed read, and after [print_statistics] raised because the
    clock had not advanced. *)
Lemma socket_closed_after_start_witness :
  (fst (handle_client 10 "KB" (quiet half_seconds three_chunks)) = Ok tt
   /\ exists events,
        trace (snd (handle_client 10 "KB" (quiet half_seconds three_chunks)))
        = ([] ++ events ++ [Closed])%list
        /\ ~ In Closed events)
  /\ (fst (handle_client 10 "KB" broken) = Raise OSError
      /\ exists events,
           trace (snd (handle_client 10 "KB" broken))
           = ([] ++ events ++ [Closed])%list
           /\ ~ In Closed events)
  /\ (fst (handle_client 10 "KB" (quiet frozen three_chunks))
      = Raise ValueError
      /\ exists events,
           trace (snd (handle_client 10 "KB" (quiet frozen three_chunks)))
           = ([] ++ events ++ [Closed])%list
           /\ ~ In Closed events).
Proof.
  repeat split; try (vm_compute; reflexivity).
  - apply (socket_closed_after_start 10 "KB"
             (quiet half_seconds three_chunks) (Ok tt));
      [intros rest; discriminate | vm_compute; reflexivity | discriminate].
  - apply (socket_closed_after_start 10 "KB" broken (Raise OSError));
      [intros rest; discriminate | vm_compute; reflexivity | discriminate].
  - apply (socket_closed_after_start 10 "KB" (quiet frozen three_chunks)
             (Raise ValueError));
      [intros rest; discriminate | vm_compute; reflexivity | discriminate].
Defined.

(** The timed sender leaves its loop after two chunks, one and a half
    seconds after it started; the sender with a target of 300 bytes leaves
    after its first chunk, long before its 25 seconds have passed. *)
Lemma sender_stops_on_first_limit_witness :
  (timed_loop = (Ok timed_end, snd timed_loop)
   /\ num_gt (total_time timed_end) (arg_time timed) = true
   /\ client_loop 1 timed client_end (half_seconds 0) None timed_end
                   (snd timed_loop)
      = (Ok timed_end, snd timed_loop))
  /\ (counted_loop = (Ok counted_end, snd counted_loop)
      /\ num_gt (total_time counted_end) (arg_time counted) = false
      /\ client_loop 1 counted client_end (half_seconds 0) (Some 300)
                      counted_end (snd counted_loop)
         = (Ok counted_end, snd counted_loop)).
Proof.
  split; (split; [vm_compute; reflexivity |]).
  - split.
    + apply (proj1 (proj2 (proj2 (proj2
               (sender_stops_on_first_limit timed client_end
                  (half_seconds 0) None))))
               (or_introl eq_refl) 10%nat (sender_init (half_seconds 0))
               started timed_end (snd timed_loop)).
      vm_compute; reflexivity.
    + apply (proj1 (proj2
               (sender_stops_on_first_limit timed client_end
                  (half_seconds 0) None))
               0%nat timed_end (snd timed_loop)).
      reflexivity.
  - split; [reflexivity |].
    apply (proj1 (proj2 (proj2
             (sender_stops_on_first_limit counted client_end
                (half_seconds 0) (Some 300))))
             0%nat counted_end (snd counted_loop) "3000B" 300 eq_refl);
      [discriminate | reflexivity | simpl; lia].
Defined.

(** The counters of the timed sender when it leaves its loop. *)
Lemma interval_within_total_witness :
  timed_loop = (Ok timed_end, snd timed_loop) /\ sent_ok timed_end.
Proof.
  split; [vm_compute; reflexivity |].
  apply (proj2 (proj2 (interval_within_total timed client_end
                         (half_seconds 0) None))
           10%nat started timed_end (snd timed_loop)).
  vm_compute; reflexivity.
Defined.

(** The timed sender reports every second: its last interval, the second,
    is empty when the loop is left, and it is reported once after the
    loop. *)
Lemma last_interval_flushed_witness :
  timed_loop = (Ok timed_end, snd timed_loop)
  /\ exists (counts : list Z) (streamed : list event),
       trace (snd timed_loop) = (trace started ++ streamed)%list
       /\ Forall
            (fun e => e = Sent chunk_data \/ exists line, e = Printed line)
            streamed
       /\ Forall (fun count => 1000 <= count) counts
       /\ 0 <= interval_sent timed_end
       /\ sum_bytes counts + interval_sent timed_end
          = total_bytes_sent timed_end
       /\ interval_number timed_end = Z.of_nat (length counts)
       /\ (forall i,
              arg_interval timed = Some i -> 0 < i ->
              printed streamed
              = interval_lines client_end (of_int i) (arg_format timed) 0
                  counts
              /\ flush_last_interval timed client_end timed_end
                   (snd timed_loop)
                 = (Ok tt,
                    set_trace
                      (trace (snd timed_loop)
                       ++ [Printed
                             (stat_line
                                (stat_record client_end
                                   (interval_sent timed_end)
                                   (interval_number timed_end) (of_int i)
                                   (arg_format timed)));
                           Printed (repeat_string 60 "-")])%list
                      (snd timed_loop)))
       /\ (arg_interval timed = None \/ arg_interval timed = Some 0 ->
           printed streamed = []
           /\ flush_last_interval timed client_end timed_end (snd timed_loop)
              = (Ok tt, snd timed_loop)).
Proof.
  split; [vm_compute; reflexivity |].
  apply (proj1 (last_interval_flushed (num := Q)) 10%nat timed client_end
           (half_seconds 0) None started timed_end (snd timed_loop)).
  vm_compute; reflexivity.
Defined.

(** Against C5 as stated: a sender without a reporting interval prints
    nothing between its last chunk and the marker, and the only record of
    the whole session is the final one. *)
Lemma no_flush_without_interval :
  (counted_loop = (Ok counted_end, snd counted_loop)
   /\ flush_last_interval counted client_end counted_end (snd counted_loop)
      = (Ok tt, snd counted_loop))
  /\ trace (snd (client 10 counted answered))
     = [Connected ("127.0.0.1", 8088);
        Printed "127.0.0.1:50000 connected with 127.0.0.1 port 8088";
        Sent (list_byte_of_string "START 25.0");
        Sent chunk_data;
        Sent BYE;
        Closed;
        Printed (newline ++ header);
        Printed "127.0.0.1:50000  0.0 - 0.5    1000 B       0.0 Mbps    "].
Proof.
  split; [| vm_compute; reflexivity].
  split; [vm_compute; reflexivity | reflexivity].
Qed.

(** The session of the timed sender, for comparison: one interval record
    in the loop and one, for an empty interval, after it. *)
Lemma timed_session_records :
  fst (client 10 timed answered) = Ok tt
  /\ filter (fun e => match e with Printed _ => true | _ => false end)
       (trace (snd (client 10 timed answered)))
     = [Printed "127.0.0.1:50000 connected with 127.0.0.1 port 8088";
        Printed header;
        Printed "127.0.0.1:50000  0.0 - 1.0    2000 B       0.0 Mbps    ";
        Printed "127.0.0.1:50000  1.0 - 2.0    0 B          0.0 Mbps    ";
        Printed (repeat_string 60 "-");
        Printed (newline ++ header);
        Printed "127.0.0.1:50000  0.0 - 1.5    2000 B       0.0 Mbps    "].
Proof. split; vm_compute; reflexivity. Qed.

(** The target 3000B is read as 300 bytes. *)
Lemma byte_suffix_target_witness :
  parse_num "3000B" = py_int (drop_last 2 "3000B")
  /\ read_num_bytes counted answered = (Ok (Some 300), answered).
Proof.
  destruct (proj1 (byte_suffix_target (num := Q)) "3000B"
              eq_refl eq_refl eq_refl)
    as [Hparse Hread].
  split; [exact Hparse |].
  exact (Hread counted answered eq_refl).
Defined.

(** ** Runs for the further properties *)

Import Scenario.

Lemma read_error_aborts_witness :
  exists w' : world Q,
    handle_client 10 "KB" broken = (Raise OSError, w')
    /\ trace w' = ([] ++ [Closed])%list
    /\ inbox w' = [].
Proof.
  apply (read_error_aborts 10 "KB" broken [chunk_data] []);
    [reflexivity | repeat constructor | simpl; lia].
Defined.

Lemma failed_acknowledgement_witness :
  exists w' : world Q,
    handle_client 10 "KB" deaf = (Raise OSError, w')
    /\ trace w' = ([] ++ [Closed])%list.
Proof.
  apply (failed_acknowledgement 10 "KB" deaf
           [chunk_data; chunk_data; chunk_data] BYE []);
    [reflexivity | repeat constructor | reflexivity | reflexivity
    | simpl; lia].
Defined.

Lemma summary_needs_elapsed_time_witness :
  exists w' : world Q,
    handle_client 10 "KB" (quiet frozen three_chunks)
    = (Raise ValueError, w')
    /\ trace w'
       = ([] ++ [Sent ACK_BYE; Printed (newline ++ header); Closed])%list.
Proof.
  apply (summary_needs_elapsed_time 10 "KB" (quiet frozen three_chunks)
           [chunk_data; chunk_data; chunk_data] BYE []);
    [reflexivity | repeat constructor | reflexivity | reflexivity
    | reflexivity | simpl; lia].
Defined.

Lemma marker_is_suffix_test_witness :
  ends_with_bye ["B"; "Y"]%byte = false
  /\ exists before, ["0"; "B"; "Y"; "E"]%byte = (before ++ BYE)%list.
Proof.
  split.
  - apply (proj2 (marker_is_suffix_test ["B"; "Y"]%byte)); simpl; lia.
  - apply (proj1 (proj1 (marker_is_suffix_test ["0"; "B"; "Y"; "E"]%byte)));
      reflexivity.
Defined.

Lemma loop_wire_accounting_witness :
  exists k : nat,
    sent_payloads (trace (snd timed_loop))
    = (sent_payloads (trace started) ++ repeat chunk_data k)%list
    /\ total_bytes_sent timed_end
       = Z.of_nat (length (concat (repeat chunk_data k)))
    /\ total_bytes_sent timed_end = CHUNK_SIZE * Z.of_nat k.
Proof.
  apply (loop_wire_accounting timed client_end (half_seconds 0) 10 None
           started timed_end (snd timed_loop)).
  vm_compute; reflexivity.
Defined.

Lemma interval_reports_partition_witness :
  exists counts : list Z,
    printed (trace (snd timed_loop))
    = (printed (trace started)
       ++ interval_lines client_end (interval_length (arg_interval timed))
            (arg_format timed) 0 counts)%list
    /\ interval_number timed_end = Z.of_nat (length counts)
    /\ sum_bytes counts + interval_sent timed_end
       = total_bytes_sent timed_end
    /\ Forall (fun count => CHUNK_SIZE <= count) counts
    /\ (truthy_int (arg_interval timed) = false -> counts = []).
Proof.
  apply (interval_reports_partition timed client_end (half_seconds 0) 10
           None started timed_end (snd timed_loop)).
  vm_compute; reflexivity.
Defined.

(** A target of 3KB puts four chunks on the wire. *)
Lemma byte_target_overshoot_witness :
  three_kb_loop = (Ok three_kb_end, snd three_kb_loop)
  /\ total_bytes_sent three_kb_end = CHUNK_SIZE * (3000 / CHUNK_SIZE + 1)
  /\ 3000 < total_bytes_sent three_kb_end <= 3000 + CHUNK_SIZE.
Proof.
  split; [vm_compute; reflexivity |].
  apply (byte_target_overshoot three_kb client_end (half_seconds 0) 10 3000
           started three_kb_end (snd three_kb_loop));
    [vm_compute; reflexivity | reflexivity | lia | reflexivity].
Defined.

Lemma first_chunk_always_sent_witness :
  CHUNK_SIZE <= total_bytes_sent timed_end.
Proof.
  apply (first_chunk_always_sent timed client_end (half_seconds 0) 10 None
           started timed_end (snd timed_loop));
    [vm_compute; reflexivity | reflexivity | discriminate].
Defined.

(** The connection of [cut] breaks at the second chunk: the sender ends in
    a transport error and its socket stays open. *)
Lemma client_socket_release_witness :
  fst (client 10 counted cut) = Raise OSError
  /\ exists events,
       trace (snd (client 10 counted cut)) = ([] ++ events)%list
       /\ (In Closed events -> In (Sent BYE) events)
       /\ (@Raise unit OSError = Raise OSError
           \/ @Raise unit OSError = Running ->
           ~ In Closed events).
Proof.
  split; [vm_compute; reflexivity |].
  apply (client_socket_release 10 counted cut (Raise OSError)
           (snd (client 10 counted cut))).
  vm_compute; reflexivity.
Defined.

Lemma client_session_shape_witness :
  exists (k : nat) (elapsed : Q) (before : list event),
    sent_payloads (trace (snd (client 10 counted answered)))
    = (sent_payloads (trace answered)
       ++ list_byte_of_string ("START " ++ num_str (arg_time counted))
       :: repeat chunk_data k ++ [BYE])%list
    /\ trace (snd (client 10 counted answered))
       = (before
          ++ [Sent BYE; Closed; Printed (newline ++ header);
              Printed
                (stat_line
                   (stat_record (sockname answered)
                      (CHUNK_SIZE * Z.of_nat k) 0 elapsed
                      (arg_format counted)))])%list.
Proof.
  apply (client_session_shape 10 counted answered
           (snd (client 10 counted answered))).
  vm_compute; reflexivity.
Defined.

Lemma short_target_rejected_witness :
  parse_num "5B" = Raise ValueError
  /\ exists w' : world Q,
       client 10 five_b answered = (Raise ValueError, w')
       /\ trace w'
          = ([]
             ++ [Connected (arg_serverip five_b, arg_port five_b);
                 Printed
                   (fst (sockname answered) ++ ":"
                    ++ str_int (snd (sockname answered))
                    ++ " connected with " ++ arg_serverip five_b ++ " port "
                    ++ str_int (arg_port five_b));
                 Sent
                   (list_byte_of_string
                      ("START " ++ num_str (arg_time five_b)))]
             ++ (if truthy_int (arg_interval five_b)
                 then [Printed header] else []))%list.
Proof.
  apply (short_target_rejected 10 five_b answered "5B");
    [reflexivity | discriminate | simpl; lia | reflexivity | reflexivity].
Defined.

Lemma server_serves_in_order_witness :
  server 5 "127.0.0.1" 8088
    {| can_bind := true; backlog := map Incoming two_peers |}
  = (Running,
     (banner "127.0.0.1" 8088 ++ served "127.0.0.1" 8088 two_peers)%list).
Proof.
  apply (server_serves_in_order 5 "127.0.0.1" 8088 two_peers); simpl; lia.
Defined.

Lemma accept_error_stops_server_witness :
  server 5 "127.0.0.1" 8088
    {| can_bind := true;
       backlog := map Incoming two_peers
                  ++ AcceptError :: [Incoming client_end] |}
  = (Raise OSError,
     (banner "127.0.0.1" 8088 ++ served "127.0.0.1" 8088 two_peers
      ++ [Unbound])%list).
Proof.
  apply (accept_error_stops_server 5 "127.0.0.1" 8088 two_peers
           [Incoming client_end]); simpl; lia.
Defined.

(** The sender [counted] reports 1000 bytes, its receiver 1013. *)
Lemma end_to_end_byte_counts_witness :
  exists (k : nat) (elapsed : Q) (before : list event) (ws' : world Q),
    trace (snd (client 10 counted answered))
    = (before
       ++ [Sent BYE; Closed; Printed (newline ++ header);
           Printed
             (stat_line
                (stat_record (sockname answered) (CHUNK_SIZE * Z.of_nat k) 0
                   elapsed (arg_format counted)))])%list
    /\ handle_client 10 "B" mirrored = (Ok tt, ws')
    /\ trace ws'
       = (trace mirrored
          ++ [Sent ACK_BYE; Printed (newline ++ header);
              Printed
                (stat_line
                   (stat_record (peername mirrored)
                      (Z.of_nat
                         (length
                            (list_byte_of_string
                               ("START " ++ num_str (arg_time counted))))
                       + CHUNK_SIZE * Z.of_nat k + 3)
                      0
                      (num_sub (clock mirrored (S (ticks mirrored)))
                               (clock mirrored (ticks mirrored)))
                      "B"));
              Closed])%list.
Proof.
  apply (end_to_end_byte_counts 10 counted answered
           (snd (client 10 counted answered)) 10 "B" mirrored);
    [reflexivity | vm_compute; reflexivity | reflexivity
    | vm_compute; reflexivity | reflexivity | vm_compute; reflexivity
    | vm_compute; lia].
Defined.

Lemma receiver_counts_handshake :
  printed (trace (snd (handle_client 10 "B" mirrored)))
  = [newline ++ header;
     "127.0.0.1:50000  0.0 - 0.5    1013 B       0.0 Mbps    "].
Proof. vm_compute; reflexivity. Qed.

(** The timed sender prints two interval records, of 2000 and 0 bytes,
    and a summary of 2000 bytes. *)
Lemma client_console_output_witness :
  exists (counts : list Z) (last : Z) (elapsed : Q),
    printed (trace (snd (client 10 timed answered)))
    = (printed (trace answered)
       ++ (fst (sockname answered) ++ ":"
           ++ str_int (snd (sockname answered))
           ++ " connected with " ++ arg_serverip timed ++ " port "
           ++ str_int (arg_port timed))%string
       :: (if truthy_int (arg_interval timed)
           then header
                :: interval_lines (sockname answered)
                     (interval_length (arg_interval timed))
                     (arg_format timed) 0 (counts ++ [last])
                ++ [repeat_string 60 "-"]
           else [])
       ++ [(newline ++ header)%string;
           stat_line
             (stat_record (sockname answered) (sum_bytes (counts ++ [last]))
                0 elapsed (arg_format timed))])%list
    /\ Forall (fun count => CHUNK_SIZE <= count) counts
    /\ 0 <= last.
Proof.
  apply (client_console_output 10 timed answered
           (snd (client 10 timed answered))).
  vm_compute; reflexivity.
Defined.
